(** * gobank: the funds-transfer path of the HTTP banking API

    A shallow embedding of [TransferFunds] and [lockAccount] (storage.go),
    of [handleTransfer] (api.go) and of the [Account], [Claims] and
    [TransferRequest] records (types.go), followed by the properties of the
    transfer engine.

    Conventions of the model.
    - A Go [float64] is an IEEE-754 binary64 value: [spec_float] with
      precision 53 and maximal exponent 1024, the operations being the
      round-to-nearest-even ones of the standard library's [SpecFloat].
    - The [account] table is the list of its rows.  The schema declares no
      uniqueness on [iban], so several rows may carry the same routing id:
      a [SELECT ... WHERE iban = $1] read through [QueryRow] yields the first
      matching row, an [UPDATE ... WHERE iban = $1] rewrites every matching
      row.
    - A transaction works on a private copy of the table; [Commit] installs
      the copy, the deferred [Rollback] discards it.  The data store itself
      is assumed available: [Begin], [Exec] and [Commit] do not fail.
    - A call returns or panics.  The one panic on the transfer path is the
      nil pointer that [handleTransfer] dereferences when the body is the
      JSON value null; it is kept as an outcome of its own, [Panics]. *)

From Stdlib Require Import ZArith QArith List String Ascii Bool Lia.
From Stdlib Require Import DecimalString DecimalPos.
From Stdlib Require Import Floats.SpecFloat.
Import ListNotations.

Local Close Scope Q_scope.
Local Open Scope string_scope.
Local Open Scope Z_scope.

(** ** Go's float64 *)

Module Float64.

Definition prec : Z := 53.
Definition emax : Z := 1024.

Definition float64 : Type := spec_float.

Definition add : float64 -> float64 -> float64 := SFadd prec emax.
Definition sub : float64 -> float64 -> float64 := SFsub prec emax.
Definition div : float64 -> float64 -> float64 := SFdiv prec emax.

(** [x > y], [x < y], [x <= y] and [x == y] of Go: false as soon as an
    operand is NaN. *)
Definition gtb (x y : float64) : bool :=
  match SFcompare x y with Some Gt => true | _ => false end.
Definition ltb : float64 -> float64 -> bool := SFltb.
Definition leb : float64 -> float64 -> bool := SFleb.
Definition eqb : float64 -> float64 -> bool := SFeqb.

Definition zero : float64 := S754_zero false.

(** [float64(z)] for an integer [z], and the float64 nearest to [n/d]
    (what a decimal literal such as 0.5 denotes). *)
Definition ofZ (z : Z) : float64 := binary_normalize prec emax z 0 false.
Definition ofRatio (n d : Z) : float64 := div (ofZ n) (ofZ d).

(** The rational number a finite float64 stands for. *)
Definition exact (x : float64) : option Q :=
  match x with
  | S754_zero _ => Some (inject_Z 0)
  | S754_finite s m e =>
      Some (Qmult (inject_Z (cond_Zopp s (Zpos m))) (Qpower (inject_Z 2) e))
  | _ => None
  end.

Definition is_zero (x : float64) : bool :=
  match x with S754_zero _ => true | _ => false end.

(** The value is a whole number (of minor units). *)
Definition is_integral (x : float64) : bool :=
  match x with
  | S754_zero _ => true
  | S754_finite _ m e =>
      match e with
      | Zneg p => Z.eqb (Z.modulo (Zpos m) (Z.pow 2 (Zpos p))) 0
      | _ => true
      end
  | _ => false
  end.

(** A finite value is well formed when its mantissa and exponent are the
    canonical binary64 ones. *)
Definition valid (x : float64) : Prop := valid_binary prec emax x = true.

(** [x < 0] *)
Definition negative (x : float64) : bool := ltb x zero.

(** The mantissa and exponent of a whole number below 2^53. *)
Definition mantissaOf (x : Z) : positive := Z.to_pos (x * 2 ^ (52 - Z.log2 x)).
Definition exponentOf (x : Z) : Z := Z.log2 x - 52.

End Float64.

Import Float64.

(** ** types.go *)

(** Go's [int] is taken as an integer, a [time.Time] as its Unix time. *)
Record Account : Type := mkAccount {
  ID : Z;
  FirstName : string;
  LastName : string;
  EncryptedPassword : string;
  IBAN : string;
  Balance : float64;
  CreatedAt : Z
}.

(** The IBAN of the token's holder and the fields of the embedded
    [jwt.StandardClaims] that [CreateToken] sets. *)
Record Claims : Type := mkClaims {
  ClaimsIBAN : string;
  ExpiresAt : Z;
  IssuedAt : Z;
  Issuer : string
}.

Record TransferRequest : Type := mkTransferRequest {
  ToAccountIban : string;
  Amount : float64
}.

(** Go's [error] values met on the transfer path. *)
Inductive error : Type :=
| ErrNoRows                 (* sql.ErrNoRows, from QueryRow(...).Scan *)
| Errorf (msg : string).    (* fmt.Errorf(msg) *)

Definition BalanceNotSufficient : error := Errorf "Balance not sufficient".
Definition NoClaims : error := Errorf "no claims found in request context".

(** ** storage.go *)

Definition table : Type := list Account.

(** What a transaction did, in order. *)
Inductive event : Type :=
| RowLocked (iban : string)                          (* SELECT ... FOR UPDATE returned the row *)
| BalanceWritten (iban : string) (balance : float64). (* UPDATE ... SET balance *)

Record Tx : Type := mkTx {
  rows : table;
  events : list event
}.

(** Statements of a transaction: they thread the transaction and may stop
    with an error. *)
Definition M (A : Type) : Type := Tx -> Tx * (error + A).

Definition ret {A} (a : A) : M A := fun tx => (tx, inr a).
Definition fail {A} (e : error) : M A := fun tx => (tx, inl e).
Definition bind {A B} (m : M A) (k : A -> M B) : M B :=
  fun tx =>
    match m tx with
    | (tx', inr a) => k a tx'
    | (tx', inl e) => (tx', inl e)
    end.

Notation "x <- m ;; k" := (bind m (fun x => k))
  (at level 61, m at next level, right associativity).
Notation "m ;;; k" := (bind m (fun _ => k))
  (at level 61, right associativity).

Definition hasIban (iban : string) (a : Account) : bool :=
  String.eqb (IBAN a) iban.

(** [SELECT iban, balance FROM account WHERE iban = $1 FOR UPDATE], scanned
    into a zero-valued [Account]. *)
Definition lockAccount (iban : string) : M Account :=
  fun tx =>
    match find (hasIban iban) (rows tx) with
    | Some r =>
        (mkTx (rows tx) (events tx ++ [RowLocked iban]),
         inr (mkAccount 0 "" "" "" (IBAN r) (Balance r) 0))
    | None => (tx, inl ErrNoRows)
    end.

Definition setBalance (iban : string) (balance : float64) (a : Account) : Account :=
  if hasIban iban a
  then mkAccount (ID a) (FirstName a) (LastName a) (EncryptedPassword a)
                 (IBAN a) balance (CreatedAt a)
  else a.

(** [update account set balance = $2 where iban = $1] *)
Definition updateBalance (iban : string) (balance : float64) : M unit :=
  fun tx =>
    (mkTx (map (setBalance iban balance) (rows tx))
          (events tx ++ [BalanceWritten iban balance]),
     inr tt).

(** The statements of [TransferFunds] between [Begin] and [Commit]. *)
Definition transferStatements (fromIban toIban : string) (amount : float64) : M unit :=
  fromAccount <- lockAccount fromIban ;;
  if gtb amount (Balance fromAccount)
  then fail BalanceNotSufficient
  else
    updateBalance fromIban (sub (Balance fromAccount) amount) ;;;
    toAccount <- lockAccount toIban ;;
    updateBalance toIban (add (Balance toAccount) amount).

(** The store after the call, what the transaction did, and the returned
    error ([None] is Go's [nil]). *)
Record Outcome : Type := mkOutcome {
  store : table;
  trace : list event;
  err : option error
}.

Definition TransferFunds (db : table) (fromIban toIban : string) (amount : float64)
  : Outcome :=
  let tx := mkTx db [] in                                   (* s.db.Begin() *)
  match transferStatements fromIban toIban amount tx with
  | (tx', inr _) => mkOutcome (rows tx') (events tx') None  (* tx.Commit() *)
  | (tx', inl e) => mkOutcome db (events tx') (Some e)      (* deferred tx.Rollback() *)
  end.

(** The balance held under a routing id, as [GetAccountByIban] and
    [lockAccount] read it. *)
Definition balanceOf (db : table) (iban : string) : option float64 :=
  option_map Balance (find (hasIban iban) db).


(** The routing id of the first [UPDATE] a transaction issued, if it issued
    any.  In [TransferFunds] that statement writes [balance - amount] under
    [fromIban]; whether this lowers the balance depends on the sign of the
    amount. *)
Fixpoint firstUpdate (tr : list event) : option string :=
  match tr with
  | [] => None
  | BalanceWritten i _ :: _ => Some i
  | RowLocked _ :: tr' => firstUpdate tr'
  end.

(** The routing ids of the rows that hold less after than before, the rows
    being compared place by place. *)
Definition debited (before after : table) : list string :=
  map (fun p => IBAN (fst p))
      (filter (fun p => ltb (Balance (snd p)) (Balance (fst p)))
              (combine before after)).

(** ** api.go *)

(** How a call ends.  Go code returns or panics; a panic unwinds the
    handler and the functions around it, none of which recovers, so that
    nothing more is written to the response.  The store stays as the
    statements sent before the panic have left it. *)
Inductive run (A : Type) : Type :=
| Panics (db : table)
| Returns (a : A).

Arguments Panics {A} db.
Arguments Returns {A} a.

Section Handler.

(** The request body and [json.NewDecoder(r.Body).Decode(&transferReq)].
    The decoder belongs to Go's library and is left open here.  It is handed
    the address of the pointer [transferReq]: besides failing, it leaves the
    pointer on a request ([Some]) or, for the JSON value null, sets it to nil
    ([None]) without an error.  A body it cannot turn into a request ends
    the handler before the store is reached. *)
Variable Body : Type.
Variable Decode : Body -> error + option TransferRequest.

(** A request as [handleTransfer] sees it: the claims that
    [validateTokenMiddleware] stored in the context, if any, and the body.
    The pointer the middleware stores is the one [ValidateToken] returned
    without an error, which is never nil. *)
Record Request : Type := mkRequest {
  ctxClaims : option Claims;
  body : Body
}.

(** On a nil [transferReq] the handler panics where it reads
    [transferReq.ToAccountIban], before [TransferFunds] is called. *)
Definition handleTransfer (db : table) (r : Request) : run Outcome :=
  match ctxClaims r with
  | None => Returns (mkOutcome db [] (Some NoClaims))
  | Some claims =>
      let fromAccountIban := ClaimsIBAN claims in
      match Decode (body r) with
      | inl e => Returns (mkOutcome db [] (Some e))
      | inr None => Panics db
      | inr (Some transferReq) =>
          Returns (TransferFunds db fromAccountIban
                                 (ToAccountIban transferReq) (Amount transferReq))
      end
  end.

End Handler.

Arguments mkRequest {Body} _ _.
Arguments ctxClaims {Body} _.
Arguments body {Body} _.
Arguments handleTransfer {Body} Decode db r.

(** ** Values that compare equal *)

(** Two float64 values that Go's [==] cannot tell apart, NaN being taken as
    itself: equal, or both zero (of either sign). *)
Definition sameValue (x y : float64) : Prop :=
  x = y \/ (is_zero x = true /\ is_zero y = true).

Definition sameBalance (x y : option float64) : Prop :=
  match x, y with
  | Some a, Some b => sameValue a b
  | None, None => True
  | _, _ => False
  end.

(** ** Invariants of the table *)

(** No account is overdrawn. *)
Definition noOverdraft (db : table) : Prop :=
  Forall (fun r => negative (Balance r) = false) db.

Definition validTable (db : table) : Prop :=
  Forall (fun r => valid (Balance r)) db.

(** ** Sample data *)

Definition acct (iban : string) (balance : float64) : Account :=
  mkAccount 0 "" "" "" iban balance 0.

(** Account A holds 100, account B holds 50. *)
Definition bank : table := [acct "A" (ofZ 100); acct "B" (ofZ 50)].

(** A body as a client may send it: the two members [TransferRequest]
    declares, and a member naming a source account, which the struct does
    not declare and the decoder therefore drops. *)
Record SampleBody : Type := mkSampleBody {
  fromAccountIbanMember : string;
  toAccountIbanMember : string;
  amountMember : float64
}.

Definition sampleDecode (b : SampleBody) : error + option TransferRequest :=
  inr (Some (mkTransferRequest (toAccountIbanMember b) (amountMember b))).

(** The same decoder on a body that may be the JSON value null ([None]),
    which leaves a nil request. *)
Definition sampleDecodeOrNull (b : option SampleBody)
  : error + option TransferRequest :=
  match b with
  | Some b' => sampleDecode b'
  | None => inr None
  end.

(** Accounts A, B and C hold 100, 50 and 10. *)
Definition bank3 : table :=
  [acct "A" (ofZ 100); acct "B" (ofZ 50); acct "C" (ofZ 10)].

Definition claimsOf (iban : string) : Claims := mkClaims iban 0 0 "gobank".

(** ** Decimal text *)

(** [strconv.Itoa], and what the verb [%d] prints. *)
Definition Itoa (z : Z) : string := NilZero.string_of_int (Z.to_int z).

Definition digitOf (c : ascii) : option Z :=
  let n := Z.of_nat (nat_of_ascii c) - 48 in
  if (0 <=? n) && (n <=? 9) then Some n else None.

Fixpoint parseDigits (s : string) (n : Z) : option Z :=
  match s with
  | EmptyString => Some n
  | String c s' =>
      match digitOf c with
      | Some d => parseDigits s' (n * 10 + d)
      | None => None
      end
  end.

(** The value of a run of decimal digits read after [n]. *)
Fixpoint valueOf (d : Decimal.uint) (n : Z) : Z :=
  match d with
  | Decimal.Nil => n
  | Decimal.D0 l => valueOf l (n * 10 + 0)
  | Decimal.D1 l => valueOf l (n * 10 + 1)
  | Decimal.D2 l => valueOf l (n * 10 + 2)
  | Decimal.D3 l => valueOf l (n * 10 + 3)
  | Decimal.D4 l => valueOf l (n * 10 + 4)
  | Decimal.D5 l => valueOf l (n * 10 + 5)
  | Decimal.D6 l => valueOf l (n * 10 + 6)
  | Decimal.D7 l => valueOf l (n * 10 + 7)
  | Decimal.D8 l => valueOf l (n * 10 + 8)
  | Decimal.D9 l => valueOf l (n * 10 + 9)
  end.

Definition minInt : Z := - 2 ^ 63.
Definition maxInt : Z := 2 ^ 63 - 1.

(** [strconv.Atoi] on a 64-bit platform, [None] standing for its error: an
    optional sign, then one decimal digit or more, the value within the
    range of [int]. *)
Definition Atoi (s : string) : option Z :=
  match s with
  | EmptyString => None
  | String c rest =>
      let neg := Ascii.eqb c "-" in
      let digits := if neg || Ascii.eqb c "+" then rest else s in
      match digits with
      | EmptyString => None
      | _ =>
          match parseDigits digits 0 with
          | Some n =>
              let v := if neg then - n else n in
              if (minInt <=? v) && (v <=? maxInt) then Some v else None
          | None => None
          end
      end
  end.

(** [strings.Split] for a separator of one character. *)
Fixpoint Split (s : string) (sep : ascii) : list string :=
  match s with
  | EmptyString => [EmptyString]
  | String c s' =>
      if Ascii.eqb c sep then EmptyString :: Split s' sep
      else match Split s' sep with
           | h :: t => String c h :: t
           | [] => [String c EmptyString]
           end
  end.

(** The character does not occur in the string. *)
Fixpoint without (sep : ascii) (s : string) : bool :=
  match s with
  | EmptyString => true
  | String c s' => negb (Ascii.eqb c sep) && without sep s'
  end.

(** ** types.go, continued *)

Record LoginRequest : Type := mkLoginRequest {
  LoginIBAN : string;
  Password : string
}.

(** [NewAccount], given what it takes from outside: the bcrypt hash of
    [HashPassword], the three draws of [rand.Intn] in the order the struct
    literal makes them, and the clock. *)
Definition NewAccount (HashPassword : string -> error + string)
  (firstName lastName password : string)
  (idDraw ibanDraw balanceDraw : Z) (now : Z) : error + Account :=
  match HashPassword password with
  | inl e => inl e
  | inr encryptedPassword =>
      inr (mkAccount idDraw firstName lastName encryptedPassword
                     (Itoa ibanDraw) (ofZ balanceDraw) now)
  end.

(** ** storage.go, continued *)

Definition hasId (id : Z) (a : Account) : bool := Z.eqb (ID a) id.

(** The [id] column is [serial], a 32-bit integer. *)
Definition inInteger (z : Z) : bool := (- 2 ^ 31 <=? z) && (z <=? 2 ^ 31 - 1).

Definition accountIdNotFound (accountId : Z) : error :=
  Errorf ("Account with id " ++ Itoa accountId ++ " not found").

Definition accountIbanNotFound (accountIban : string) : error :=
  Errorf ("Account with IBAN number " ++ accountIban ++ " not found").

(** [select * from account where iban=$1]: the first row, scanned whole.
    As in [lockAccount], the routing id is taken to be text the store
    accepts. *)
Definition GetAccountByIban (db : table) (accountIban : string) : error + Account :=
  match find (hasIban accountIban) db with
  | Some r => inr r
  | None => inl (accountIbanNotFound accountIban)
  end.

(** A committed sequence of transfers of whole amounts, failed calls leaving
    the store as it was. *)
Fixpoint runTransfers (db : table) (ts : list (string * string * Z)) : table :=
  match ts with
  | [] => db
  | (fromIban, toIban, amount) :: ts' =>
      runTransfers (store (TransferFunds db fromIban toIban (ofZ amount))) ts'
  end.

(** ** Whole balances *)

(** The row holds the whole, non-negative number [z] of units. *)
Definition holds (r : Account) (z : Z) : Prop := Balance r = ofZ z /\ 0 <= z.

Definition ledger (db : table) (zs : list Z) : Prop := Forall2 holds db zs.

Definition total (zs : list Z) : Z := fold_right Z.add 0 zs.

Definition uniqueIbans (db : table) : Prop := NoDup (map IBAN db).

(** Every column of a row but its balance. *)
Definition identity (r : Account) : Z * string * string * string * string * Z :=
  (ID r, FirstName r, LastName r, EncryptedPassword r, IBAN r, CreatedAt r).

(** ** api.go, continued *)

Definition StatusOK : Z := 200.
Definition StatusBadRequest : Z := 400.

(** [err.Error()] *)
Definition errorString (e : error) : string :=
  match e with
  | ErrNoRows => "sql: no rows in result set"
  | Errorf msg => msg
  end.

(** The values the handlers hand to [WriteJSON]. *)
Inductive payload : Type :=
| APIError (Error : string)
| StatusSuccess                      (* map[string]string{"status": "success"} *)
| Deleted (id : Z)                   (* map[string]int{"deleted": id} *)
| AccountJSON (account : Account)
| LoginResponse (iban token : string).

(** An [http.ResponseWriter]: the status line, fixed by the first
    [WriteHeader], and the values encoded into the body so far. *)
Record ResponseWriter : Type := mkResponseWriter {
  statusCode : option Z;
  bodyWritten : list payload
}.

Definition NewRecorder : ResponseWriter := mkResponseWriter None [].

(** The answer of a route that wrote nothing but an error with status 400. *)
Definition badRequest (msg : string) : ResponseWriter :=
  mkResponseWriter (Some StatusBadRequest) [APIError msg].

Definition WriteHeader (w : ResponseWriter) (status : Z) : ResponseWriter :=
  match statusCode w with
  | None => mkResponseWriter (Some status) (bodyWritten w)
  | Some _ => w
  end.

Section Server.

(** What the server takes from outside the repository:
    - the error of the database driver for an id outside the [integer] type
      of the [id] column;
    - the error, if any, of [encoding/json] on an account (a balance that is
      not finite, a year outside 0..9999); the other payloads hold strings
      and integers only and always encode;
    - [ValidateToken] and [CreateToken], which rest on the jwt library, the
      environment and the clock; [checkPasswordHash], which rests on bcrypt;
    - the request body and the two JSON decoders of the handlers; the one
      of [handleTransfer] is handed the address of a pointer and can leave
      it nil, the one of [handleLogin] is handed the pointer itself.
    Writing to the connection is assumed not to fail. *)
Variable pqOutOfRange : Z -> error.
Variable marshalAccount : Account -> option error.
Variable ValidateToken : string -> error + Claims.
Variable CreateToken : string -> error + string.
Variable checkPasswordHash : string -> string -> bool.
Variable Body : Type.
Variable DecodeTransfer : Body -> error + option TransferRequest.
Variable DecodeLogin : Body -> error + LoginRequest.

(** [select * from account where id=$1]: the first row, scanned whole. *)
Definition GetAccountById (db : table) (accountId : Z) : error + Account :=
  if inInteger accountId
  then match find (hasId accountId) db with
       | Some r => inr r
       | None => inl (accountIdNotFound accountId)
       end
  else inl (pqOutOfRange accountId).

(** [delete from account where id=$1] *)
Definition DeleteAccount (db : table) (accountId : Z) : table * option error :=
  if inInteger accountId
  then (filter (fun r => negb (hasId accountId r)) db, None)
  else (db, Some (pqOutOfRange accountId)).

Definition marshal (v : payload) : option error :=
  match v with
  | AccountJSON a => marshalAccount a
  | _ => None
  end.

(** The status is written before the value is encoded; a value that does
    not encode leaves the body as it was. *)
Definition WriteJSON (w : ResponseWriter) (status : Z) (v : payload)
  : ResponseWriter * option error :=
  let w' := WriteHeader w status in
  match marshal v with
  | Some e => (w', Some e)
  | None => (mkResponseWriter (statusCode w') (bodyWritten w' ++ [v]), None)
  end.

(** The parts of an [*http.Request] the handlers read: the Authorization
    header (empty when absent), the route variables of [mux.Vars], the
    claims in the context and the body. *)
Record HTTPRequest : Type := mkHTTPRequest {
  authorization : string;
  vars : list (string * string);
  context : option Claims;
  requestBody : Body
}.

Definition apiFunc : Type :=
  table -> ResponseWriter -> HTTPRequest -> table * ResponseWriter * option error.

Definition HandlerFunc : Type :=
  table -> ResponseWriter -> HTTPRequest -> table * ResponseWriter.

Definition makeHTTPHandleFunc (f : apiFunc) : HandlerFunc :=
  fun db w r =>
    match f db w r with
    | (db', w', Some e) =>
        (db', fst (WriteJSON w' StatusBadRequest (APIError (errorString e))))
    | (db', w', None) => (db', w')
    end.

Definition validateTokenMiddleware (next : HandlerFunc) : HandlerFunc :=
  fun db w r =>
    let authHeader := authorization r in
    if String.eqb authHeader ""
    then (db, fst (WriteJSON w StatusBadRequest
                     (APIError "Authorization header is required")))
    else
      let headerParts := Split authHeader " " in
      if negb (Nat.eqb (List.length headerParts) 2)
         || negb (String.eqb (nth 0 headerParts "") "Bearer")
      then (db, fst (WriteJSON w StatusBadRequest
                       (APIError "Authorization header must be in the format 'Bearer {token}'")))
      else
        let tokenStr := nth 1 headerParts "" in
        match ValidateToken tokenStr with
        | inl _ =>
            (db, fst (WriteJSON w StatusBadRequest (APIError "Access Denied")))
        | inr claims =>
            next db w (mkHTTPRequest (authorization r) (vars r)
                                     (Some claims) (requestBody r))
        end.

(** [mux.Vars(r)["id"]]: the empty string when the variable is missing. *)
Definition varOf (vs : list (string * string)) (key : string) : string :=
  match find (fun kv => String.eqb (fst kv) key) vs with
  | Some kv => snd kv
  | None => ""
  end.

Definition getId (r : HTTPRequest) : error + Z :=
  let idStr := varOf (vars r) "id" in
  match Atoi idStr with
  | Some id => inr id
  | None => inl (Errorf ("Invalid id: " ++ idStr))
  end.

Definition handleGetAccount : apiFunc :=
  fun db w r =>
    match getId r with
    | inl e => (db, w, Some e)
    | inr id =>
        match GetAccountById db id with
        | inl e => (db, w, Some e)
        | inr account =>
            let (w', e) := WriteJSON w StatusOK (AccountJSON account) in
            (db, w', e)
        end
    end.

Definition handleDeleteAccount : apiFunc :=
  fun db w r =>
    match getId r with
    | inl e => (db, w, Some e)
    | inr id =>
        match DeleteAccount db id with
        | (db', Some e) => (db', w, Some e)
        | (db', None) =>
            let (w', e) := WriteJSON w StatusOK (Deleted id) in
            (db', w', e)
        end
    end.

Definition handleLogin : apiFunc :=
  fun db w r =>
    match DecodeLogin (requestBody r) with
    | inl e => (db, w, Some e)
    | inr loginReq =>
        match GetAccountByIban db (LoginIBAN loginReq) with
        | inl e => (db, w, Some e)
        | inr account =>
            if negb (checkPasswordHash (Password loginReq)
                                       (EncryptedPassword account))
            then (db, w, Some (Errorf "Access Denied"))
            else
              match CreateToken (LoginIBAN loginReq) with
              | inl e => (db, w, Some e)
              | inr token =>
                  let (w', e) :=
                    WriteJSON w StatusOK
                              (LoginResponse (LoginIBAN loginReq) token) in
                  (db, w', e)
              end
        end
    end.

(** The routes of [Run] whose handlers always return. *)
Definition getAccountRoute : HandlerFunc := makeHTTPHandleFunc handleGetAccount.
Definition deleteAccountRoute : HandlerFunc := makeHTTPHandleFunc handleDeleteAccount.
Definition loginRoute : HandlerFunc := makeHTTPHandleFunc handleLogin.

(** [handleTransfer] may panic, and neither [makeHTTPHandleFunc] nor
    [validateTokenMiddleware] recovers.  Around such a handler the two are
    the functions below: they pass the panic on and are otherwise the ones
    above. *)
Definition apiFuncOrPanic : Type :=
  table -> ResponseWriter -> HTTPRequest
  -> run (table * ResponseWriter * option error).

Definition HandlerFuncOrPanic : Type :=
  table -> ResponseWriter -> HTTPRequest -> run (table * ResponseWriter).

Definition makeHTTPHandleFuncOrPanic (f : apiFuncOrPanic) : HandlerFuncOrPanic :=
  fun db w r =>
    match f db w r with
    | Panics db' => Panics db'
    | Returns (db', w', Some e) =>
        Returns (db', fst (WriteJSON w' StatusBadRequest
                             (APIError (errorString e))))
    | Returns (db', w', None) => Returns (db', w')
    end.

Definition validateTokenMiddlewareOrPanic (next : HandlerFuncOrPanic)
  : HandlerFuncOrPanic :=
  fun db w r =>
    let authHeader := authorization r in
    if String.eqb authHeader ""
    then Returns (db, fst (WriteJSON w StatusBadRequest
                             (APIError "Authorization header is required")))
    else
      let headerParts := Split authHeader " " in
      if negb (Nat.eqb (List.length headerParts) 2)
         || negb (String.eqb (nth 0 headerParts "") "Bearer")
      then Returns (db, fst (WriteJSON w StatusBadRequest
                               (APIError "Authorization header must be in the format 'Bearer {token}'")))
      else
        let tokenStr := nth 1 headerParts "" in
        match ValidateToken tokenStr with
        | inl _ =>
            Returns (db, fst (WriteJSON w StatusBadRequest
                                (APIError "Access Denied")))
        | inr claims =>
            next db w (mkHTTPRequest (authorization r) (vars r)
                                     (Some claims) (requestBody r))
        end.

(** [handleTransfer] together with the response it writes on success. *)
Definition handleTransferJSON : apiFuncOrPanic :=
  fun db w r =>
    match handleTransfer DecodeTransfer db
            (mkRequest (context r) (requestBody r)) with
    | Panics db' => Panics db'
    | Returns o =>
        match err o with
        | Some e => Returns (store o, w, Some e)
        | None =>
            let (w', e) := WriteJSON w StatusOK StatusSuccess in
            Returns (store o, w', e)
        end
    end.

Definition transferRoute : HandlerFuncOrPanic :=
  validateTokenMiddlewareOrPanic (makeHTTPHandleFuncOrPanic handleTransferJSON).

End Server.

Arguments mkHTTPRequest {Body} _ _ _ _.
Arguments authorization {Body} _.
Arguments vars {Body} _.
Arguments context {Body} _.
Arguments requestBody {Body} _.
Arguments getId {Body} r.
Arguments makeHTTPHandleFunc marshalAccount {Body} f.
Arguments validateTokenMiddleware marshalAccount ValidateToken {Body} next.
Arguments makeHTTPHandleFuncOrPanic marshalAccount {Body} f.
Arguments validateTokenMiddlewareOrPanic marshalAccount ValidateToken {Body} next.
Arguments handleGetAccount pqOutOfRange marshalAccount {Body}.
Arguments handleDeleteAccount pqOutOfRange marshalAccount {Body}.
Arguments handleLogin marshalAccount CreateToken checkPasswordHash {Body} DecodeLogin.
Arguments handleTransferJSON marshalAccount {Body} DecodeTransfer.
Arguments getAccountRoute pqOutOfRange marshalAccount {Body}.
Arguments deleteAccountRoute pqOutOfRange marshalAccount {Body}.
Arguments loginRoute marshalAccount CreateToken checkPasswordHash {Body} DecodeLogin.
Arguments transferRoute marshalAccount ValidateToken {Body} DecodeTransfer.

(** ** Facts about float64 *)

Lemma leb_not_gtb (x y : float64) : leb x y = true -> gtb x y = false.
Proof.
  unfold leb, SFleb, gtb.
  destruct (SFcompare x y) as [[| |]|]; intros H; try reflexivity; discriminate.
Qed.

Lemma sameBalance_refl (x : option float64) : sameBalance x x.
Proof. destruct x; simpl; [left; reflexivity | exact I]. Qed.

Lemma sub_zero (x a : float64) : is_zero a = true -> sameValue (sub x a) x.
Proof.
  destruct a as [sa| | |]; try discriminate. intros _.
  destruct x as [sx| | |]; simpl; try (left; reflexivity).
  right. destruct sx, sa; split; reflexivity.
Qed.

Lemma add_zero (x y a : float64) :
  is_zero a = true -> sameValue y x -> sameValue (add y a) x.
Proof.
  destruct a as [sa| | |]; try discriminate. intros _ [->|[Hy Hx]].
  - destruct x as [sx| | |]; simpl; try (left; reflexivity).
    right. destruct sx, sa; split; reflexivity.
  - destruct y as [sy| | |]; try discriminate.
    right. split; [|exact Hx]. destruct sy, sa; reflexivity.
Qed.

(** *** Signs *)

Lemma digits2_pos_size (m : positive) : digits2_pos m = Pos.size m.
Proof. induction m; simpl; congruence. Qed.

Lemma iter_xO_value (m d : positive) :
  Zpos (Pos.iter xO m d) = Zpos m * 2 ^ Zpos d.
Proof.
  induction d as [|d IH] using Pos.peano_ind.
  - simpl. lia.
  - rewrite Pos.iter_succ, Pos2Z.inj_xO, IH, Pos2Z.inj_succ.
    rewrite Z.pow_succ_r by lia. ring.
Qed.

Lemma shl_align_value (m : positive) (e ez : Z) :
  ez <= e ->
  Zpos (fst (shl_align m e ez)) = Zpos m * 2 ^ (e - ez).
Proof.
  intros H. unfold shl_align.
  destruct (ez - e) as [|d|d] eqn:E; cbn [fst].
  - replace (e - ez) with 0 by lia. rewrite Z.pow_0_r. lia.
  - lia.
  - rewrite iter_xO_value. replace (e - ez) with (Zpos d) by lia. reflexivity.
Qed.

Lemma binary_round_aux_not_negative m e l :
  negative (binary_round_aux prec emax false m e l) = false.
Proof.
  unfold binary_round_aux.
  destruct (shr_fexp prec emax m e l) as [mrs' e'].
  destruct (shr_fexp prec emax _ e' loc_Exact) as [mrs'' e''].
  destruct (shr_m mrs''); [reflexivity| |reflexivity].
  destruct (e'' <=? emax - prec); reflexivity.
Qed.

Lemma binary_normalize_not_negative m e :
  0 <= m -> negative (binary_normalize prec emax m e false) = false.
Proof.
  intros H. destruct m as [|p|p]; simpl; [reflexivity| |lia].
  unfold binary_round.
  destruct (shl_align p e _) as [mz ez].
  apply binary_round_aux_not_negative.
Qed.

(** Canonical mantissas have at most 53 digits, exactly 53 above the
    smallest exponent. *)
Lemma bounded_digits (m : positive) (e : Z) :
  bounded prec emax m e = true ->
  -1074 <= e /\ Zpos m < 2 ^ 53 /\ (-1074 < e -> 2 ^ 52 <= Zpos m).
Proof.
  unfold bounded, canonical_mantissa, fexp, emin, prec, emax.
  intros H. apply andb_prop in H. destruct H as [H _].
  apply Z.eqb_eq in H. rewrite digits2_pos_size in H.
  pose proof (Pos.size_gt m) as Hgt. pose proof (Pos.size_le m) as Hle.
  apply Pos2Z.pos_lt_pos in Hgt. apply Pos2Z.pos_le_pos in Hle.
  rewrite Pos2Z.inj_pow in Hgt, Hle. rewrite Pos2Z.inj_xO in Hle.
  split; [lia|]. split.
  - assert (Hsz : Zpos (Pos.size m) <= 53) by lia.
    apply Z.lt_le_trans with (1 := Hgt).
    apply Z.pow_le_mono_r; lia.
  - intros He. assert (Hsz : Zpos (Pos.size m) = 53) by lia.
    rewrite Hsz in Hle. change (2 ^ 53) with (2 * 2 ^ 52) in Hle. lia.
Qed.

Lemma sub_not_negative (sb a : float64) :
  valid sb -> valid a ->
  negative sb = false -> negative a = false ->
  gtb a sb = false ->
  negative (sub sb a) = false.
Proof.
  unfold valid.
  destruct sb as [ss|ss| |ss ms es], a as [sa|sa| |sa ma ea];
    try (destruct ss); try (destruct sa);
    try discriminate; try reflexivity.
  intros Vs Va _ _ Hgt. simpl in Vs, Va.
  apply bounded_digits in Vs, Va.
  destruct Vs as (_ & Vs1 & Vs2), Va as (Va0 & Va1 & _).
  unfold sub, SFsub. apply binary_normalize_not_negative.
  unfold cond_Zopp.
  rewrite !shl_align_value by lia.
  unfold gtb in Hgt. simpl in Hgt.
  destruct (Z.compare_spec ea es) as [E|E|E]; [| |discriminate].
  - subst ea. rewrite Z.min_id, Z.sub_diag, Z.pow_0_r.
    change (Pos.compare_cont Eq ma ms) with (Pos.compare ma ms) in Hgt.
    destruct (Pos.compare_spec ma ms) as [E|E|E]; [| |discriminate].
    + subst. lia.
    + apply Pos2Z.pos_lt_pos in E. lia.
  - rewrite Z.min_r by lia. rewrite Z.sub_diag, Z.pow_0_r.
    assert (Hms : 2 ^ 52 <= Zpos ms).
    { apply Vs2. lia. }
    assert (2 * 2 ^ 52 <= Zpos ms * 2 ^ (es - ea)).
    { replace (es - ea) with (Z.succ (es - ea - 1)) by lia.
      rewrite Z.pow_succ_r by lia.
      assert (0 < 2 ^ (es - ea - 1)) by (apply Z.pow_pos_nonneg; lia).
      nia. }
    change (2 ^ 53) with (2 * 2 ^ 52) in Va1. lia.
Qed.

Lemma add_not_negative (tb a : float64) :
  negative tb = false -> negative a = false ->
  negative (add tb a) = false.
Proof.
  destruct tb as [st|st| |st mt et], a as [sa|sa| |sa ma ea];
    try (destruct st); try (destruct sa);
    try discriminate; try reflexivity.
  intros _ _. unfold add, SFadd. apply binary_normalize_not_negative.
  unfold cond_Zopp. lia.
Qed.

(** *** Whole numbers *)

Lemma size_iter_xO (m k : positive) :
  Pos.size (Pos.iter xO m k) = (Pos.size m + k)%positive.
Proof.
  induction k as [|k IH] using Pos.peano_ind.
  - simpl. lia.
  - rewrite Pos.iter_succ. simpl. rewrite IH. lia.
Qed.

(** Shifting out trailing zero bits loses nothing. *)
Lemma iter_shr_1_zeros (k m : positive) :
  iter_pos shr_1 k (Build_shr_record (Zpos (Pos.iter xO m k)) false false)
  = Build_shr_record (Zpos m) false false.
Proof.
  revert m. induction k as [k IH|k IH|]; intros m; simpl.
  - rewrite !IH. reflexivity.
  - rewrite !IH. reflexivity.
  - reflexivity.
Qed.

(** A 53-digit mantissa in range is left alone by rounding. *)
Lemma shr_fexp_canonical (m : positive) (e : Z) :
  Pos.size m = 53%positive -> -1074 <= e ->
  shr_fexp prec emax (Zpos m) e loc_Exact
  = (Build_shr_record (Zpos m) false false, e).
Proof.
  intros Hs He. unfold shr_fexp.
  change (Zdigits2 (Zpos m)) with (Zpos (digits2_pos m)).
  rewrite digits2_pos_size, Hs.
  replace (fexp prec emax (53 + e) - e) with 0
    by (unfold fexp, emin, prec, emax; lia).
  reflexivity.
Qed.

Lemma binary_round_aux_canonical (m : positive) (e : Z) :
  Pos.size m = 53%positive -> -1074 <= e <= 971 ->
  binary_round_aux prec emax false (Zpos m) e loc_Exact = S754_finite false m e.
Proof.
  intros Hs He. unfold binary_round_aux.
  rewrite (shr_fexp_canonical m e Hs) by lia.
  cbn [shr_m loc_of_shr_record round_nearest_even].
  rewrite (shr_fexp_canonical m e Hs) by lia.
  cbn [shr_m].
  replace (e <=? emax - prec) with true; [reflexivity|].
  symmetry. apply Z.leb_le. unfold emax, prec. lia.
Qed.

Lemma binary_round_shift_right (m k : positive) (e : Z) :
  Pos.size m = 53%positive -> -1074 <= e + Zpos k <= 971 ->
  binary_round prec emax false (Pos.iter xO m k) e
  = S754_finite false m (e + Zpos k).
Proof.
  intros Hs He.
  assert (D : Zpos (digits2_pos (Pos.iter xO m k)) = 53 + Zpos k).
  { rewrite digits2_pos_size, size_iter_xO, Hs. lia. }
  assert (E : fexp prec emax (53 + Zpos k + e) - e = Zpos k)
    by (unfold fexp, emin, prec, emax; lia).
  unfold binary_round, shl_align. rewrite D, E.
  unfold binary_round_aux, shr_fexp at 1.
  change (Zdigits2 (Zpos (Pos.iter xO m k)))
    with (Zpos (digits2_pos (Pos.iter xO m k))).
  rewrite D, E.
  unfold shr_record_of_loc, shr. rewrite iter_shr_1_zeros.
  cbn [shr_m loc_of_shr_record round_nearest_even].
  rewrite (shr_fexp_canonical m (e + Zpos k) Hs) by lia.
  cbn [shr_m].
  replace (e + Zpos k <=? emax - prec) with true; [reflexivity|].
  symmetry. apply Z.leb_le. unfold emax, prec. lia.
Qed.

Lemma binary_round_shift_left (m k : positive) (e : Z) :
  (Pos.size m + k = 53)%positive -> -1074 <= e - Zpos k <= 971 ->
  binary_round prec emax false m e
  = S754_finite false (Pos.iter xO m k) (e - Zpos k).
Proof.
  intros Hs He.
  assert (E : fexp prec emax (Zpos (digits2_pos m) + e) - e = Zneg k).
  { rewrite digits2_pos_size. unfold fexp, emin, prec, emax. lia. }
  unfold binary_round, shl_align. rewrite E.
  replace (fexp prec emax (Zpos (digits2_pos m) + e)) with (e - Zpos k) by lia.
  apply binary_round_aux_canonical; [|exact He].
  rewrite size_iter_xO. exact Hs.
Qed.

Lemma binary_round_canonical (m : positive) (e : Z) :
  Pos.size m = 53%positive -> -1074 <= e <= 971 ->
  binary_round prec emax false m e = S754_finite false m e.
Proof.
  intros Hs He.
  assert (E : fexp prec emax (Zpos (digits2_pos m) + e) - e = 0).
  { rewrite digits2_pos_size, Hs. unfold fexp, emin, prec, emax. lia. }
  unfold binary_round, shl_align. rewrite E.
  apply binary_round_aux_canonical; assumption.
Qed.

Lemma iter_xO_inj_value (M m k : positive) :
  Zpos M = Zpos m * 2 ^ Zpos k -> M = Pos.iter xO m k.
Proof.
  intros H. rewrite <- iter_xO_value in H. congruence.
Qed.

(** Rounding depends on the value only, as long as it fits 53 digits. *)
Lemma binary_round_value (M m : positive) (e e' : Z) :
  Pos.size m = 53%positive -> -1074 <= e' <= 971 ->
  Zpos M * 2 ^ (e - Z.min e e') = Zpos m * 2 ^ (e' - Z.min e e') ->
  binary_round prec emax false M e = S754_finite false m e'.
Proof.
  intros Hs He H.
  destruct (Z.lt_trichotomy e e') as [L|[L|L]].
  - rewrite Z.min_l, Z.sub_diag, Z.pow_0_r, Z.mul_1_r in H by lia.
    destruct (e' - e) as [|k|k] eqn:K; try lia.
    apply iter_xO_inj_value in H. subst M.
    replace e' with (e + Zpos k) in * by lia.
    apply binary_round_shift_right; assumption.
  - subst e'. rewrite Z.min_id, Z.sub_diag, Z.pow_0_r, !Z.mul_1_r in H.
    injection H as ->. apply binary_round_canonical; assumption.
  - rewrite Z.min_r, Z.sub_diag, Z.pow_0_r, Z.mul_1_r in H by lia.
    destruct (e - e') as [|k|k] eqn:K; try lia.
    symmetry in H. apply iter_xO_inj_value in H. subst m.
    replace e' with (e - Zpos k) in * by lia.
    apply binary_round_shift_left; [|assumption].
    rewrite size_iter_xO in Hs. exact Hs.
Qed.

Lemma size_log2 (p : positive) : Zpos (Pos.size p) = Z.log2 (Zpos p) + 1.
Proof.
  destruct p; simpl; lia.
Qed.

Lemma log2_below (x : Z) : 0 < x < 2 ^ 53 -> 0 <= Z.log2 x <= 52.
Proof.
  intros H. split; [apply Z.log2_nonneg|].
  assert (Z.log2 x < 53); [|lia].
  apply Z.log2_lt_pow2; lia.
Qed.

Lemma mantissaOf_value (x : Z) :
  0 < x < 2 ^ 53 -> Zpos (mantissaOf x) = x * 2 ^ (52 - Z.log2 x).
Proof.
  intros H. pose proof (log2_below x H).
  unfold mantissaOf. rewrite Z2Pos.id; [reflexivity|].
  apply Z.mul_pos_pos; [lia|]. apply Z.pow_pos_nonneg; lia.
Qed.

Lemma mantissaOf_size (x : Z) :
  0 < x < 2 ^ 53 -> Pos.size (mantissaOf x) = 53%positive.
Proof.
  intros H. pose proof (log2_below x H).
  apply Pos2Z.inj. rewrite size_log2, mantissaOf_value by exact H.
  rewrite Z.log2_mul_pow2 by lia. lia.
Qed.

(** Any mantissa and exponent standing for the whole number [x] round to
    [float64(x)]. *)
Lemma binary_normalize_whole (z e x : Z) :
  0 <= x < 2 ^ 53 -> e <= 0 -> z = x * 2 ^ (- e) ->
  binary_normalize prec emax z e false
  = match x with
    | Z0 => S754_zero false
    | _ => S754_finite false (mantissaOf x) (exponentOf x)
    end.
Proof.
  intros Hx He Hz.
  assert (P : 0 < 2 ^ (- e)) by (apply Z.pow_pos_nonneg; lia).
  destruct x as [|x|x]; [subst z; reflexivity| |lia].
  destruct z as [|M|M]; [lia| |lia].
  assert (Hx' : 0 < Zpos x < 2 ^ 53) by lia.
  pose proof (log2_below _ Hx').
  unfold binary_normalize. apply binary_round_value.
  - apply mantissaOf_size. exact Hx'.
  - unfold exponentOf. lia.
  - rewrite mantissaOf_value, Hz by exact Hx'. unfold exponentOf.
    rewrite <- !Z.mul_assoc, <- !Z.pow_add_r by lia.
    f_equal. f_equal. lia.
Qed.

Lemma ofZ_whole (x : Z) :
  0 <= x < 2 ^ 53 ->
  ofZ x = match x with
          | Z0 => S754_zero false
          | _ => S754_finite false (mantissaOf x) (exponentOf x)
          end.
Proof.
  intros Hx. unfold ofZ. apply binary_normalize_whole; [exact Hx|lia|].
  simpl. lia.
Qed.

Lemma binary_normalize_ofZ (z e x : Z) :
  0 <= x < 2 ^ 53 -> e <= 0 -> z = x * 2 ^ (- e) ->
  binary_normalize prec emax z e false = ofZ x.
Proof.
  intros Hx He Hz. rewrite (ofZ_whole x Hx).
  apply binary_normalize_whole; assumption.
Qed.

(** The aligned mantissa of a whole number. *)
Lemma aligned_whole (x ez : Z) :
  0 < x < 2 ^ 53 -> ez <= exponentOf x ->
  Zpos (fst (shl_align (mantissaOf x) (exponentOf x) ez)) = x * 2 ^ (- ez).
Proof.
  intros Hx He. pose proof (log2_below x Hx).
  rewrite shl_align_value, mantissaOf_value by assumption.
  unfold exponentOf in *.
  rewrite <- Z.mul_assoc, <- Z.pow_add_r by lia.
  f_equal. f_equal. lia.
Qed.

(** float64 addition is exact on whole numbers whose sum stays below
    2^53. *)
Lemma add_whole (x y : Z) :
  0 <= x -> 0 <= y -> x + y < 2 ^ 53 ->
  add (ofZ x) (ofZ y) = ofZ (x + y).
Proof.
  intros Hx Hy Hxy.
  destruct (Z.eq_dec x 0) as [->|Nx].
  { rewrite Z.add_0_l. rewrite (ofZ_whole y) by lia.
    destruct y; try reflexivity. }
  destruct (Z.eq_dec y 0) as [->|Ny].
  { rewrite Z.add_0_r. rewrite (ofZ_whole x) by lia.
    destruct x; try reflexivity. }
  rewrite (ofZ_whole x), (ofZ_whole y) by lia.
  destruct x as [|p|p]; try lia. destruct y as [|q|q]; try lia.
  set (x := Zpos p) in *. set (y := Zpos q) in *.
  assert (Bx : 0 < x < 2 ^ 53) by lia.
  assert (By : 0 < y < 2 ^ 53) by lia.
  pose proof (log2_below x Bx). pose proof (log2_below y By).
  change (add (S754_finite false (mantissaOf x) (exponentOf x))
              (S754_finite false (mantissaOf y) (exponentOf y)))
    with (binary_normalize prec emax
            (Zpos (fst (shl_align (mantissaOf x) (exponentOf x)
                          (Z.min (exponentOf x) (exponentOf y))))
             + Zpos (fst (shl_align (mantissaOf y) (exponentOf y)
                            (Z.min (exponentOf x) (exponentOf y)))))
            (Z.min (exponentOf x) (exponentOf y)) false).
  apply binary_normalize_ofZ.
  - lia.
  - unfold exponentOf. lia.
  - rewrite !aligned_whole by (assumption || lia). ring.
Qed.

(** float64 subtraction is exact on whole numbers below 2^53. *)
Lemma sub_whole (x y : Z) :
  0 <= y <= x -> x < 2 ^ 53 ->
  sub (ofZ x) (ofZ y) = ofZ (x - y).
Proof.
  intros Hy Hx.
  destruct (Z.eq_dec y 0) as [->|Ny].
  { rewrite Z.sub_0_r. rewrite (ofZ_whole x) by lia.
    destruct x; try reflexivity. }
  rewrite (ofZ_whole x), (ofZ_whole y) by lia.
  destruct y as [|q|q]; try lia. destruct x as [|p|p]; try lia.
  set (x := Zpos p) in *. set (y := Zpos q) in *.
  assert (Bx : 0 < x < 2 ^ 53) by lia.
  assert (By : 0 < y < 2 ^ 53) by lia.
  pose proof (log2_below x Bx). pose proof (log2_below y By).
  change (sub (S754_finite false (mantissaOf x) (exponentOf x))
              (S754_finite false (mantissaOf y) (exponentOf y)))
    with (binary_normalize prec emax
            (Zpos (fst (shl_align (mantissaOf x) (exponentOf x)
                          (Z.min (exponentOf x) (exponentOf y))))
             - Zpos (fst (shl_align (mantissaOf y) (exponentOf y)
                            (Z.min (exponentOf x) (exponentOf y)))))
            (Z.min (exponentOf x) (exponentOf y)) false).
  apply binary_normalize_ofZ.
  - lia.
  - unfold exponentOf. lia.
  - rewrite !aligned_whole by (assumption || lia). ring.
Qed.

(** Whole numbers compare as floats the way they compare as integers. *)
Lemma compare_whole (x y : Z) :
  0 <= x < 2 ^ 53 -> 0 <= y < 2 ^ 53 ->
  SFcompare (ofZ x) (ofZ y) = Some (x ?= y).
Proof.
  intros Hx Hy. rewrite (ofZ_whole x Hx), (ofZ_whole y Hy).
  destruct x as [|p|p]; try lia; destruct y as [|q|q]; try lia;
    try reflexivity.
  set (x := Zpos p) in *. set (y := Zpos q) in *.
  assert (Bx : 0 < x < 2 ^ 53) by lia.
  assert (By : 0 < y < 2 ^ 53) by lia.
  pose proof (log2_below x Bx). pose proof (log2_below y By).
  change (SFcompare (S754_finite false (mantissaOf x) (exponentOf x))
                    (S754_finite false (mantissaOf y) (exponentOf y)))
    with (Some match exponentOf x ?= exponentOf y with
               | Lt => Lt
               | Gt => Gt
               | Eq => Pos.compare (mantissaOf x) (mantissaOf y)
               end).
  f_equal. unfold exponentOf.
  pose proof (Z.log2_spec x) as Sx. pose proof (Z.log2_spec y) as Sy.
  destruct (Z.compare_spec (Z.log2 x - 52) (Z.log2 y - 52)) as [E|E|E].
  - rewrite Pos2Z.inj_compare, !mantissaOf_value by assumption.
    replace (Z.log2 y) with (Z.log2 x) by lia.
    symmetry. apply Zmult_compare_compat_r.
    apply Z.lt_gt, Z.pow_pos_nonneg; lia.
  - symmetry. apply Z.compare_lt_iff.
    assert (2 ^ Z.succ (Z.log2 x) <= 2 ^ Z.log2 y)
      by (apply Z.pow_le_mono_r; lia).
    lia.
  - symmetry. apply Z.compare_gt_iff.
    assert (2 ^ Z.succ (Z.log2 y) <= 2 ^ Z.log2 x)
      by (apply Z.pow_le_mono_r; lia).
    lia.
Qed.

Lemma is_integral_ofZ (x : Z) :
  0 <= x < 2 ^ 53 -> is_integral (ofZ x) = true.
Proof.
  intros Hx. rewrite (ofZ_whole x Hx).
  destruct x as [|p|p]; [reflexivity| |lia].
  unfold is_integral.
  destruct (exponentOf (Zpos p)) as [|k|k] eqn:E; try reflexivity.
  rewrite mantissaOf_value by lia.
  unfold exponentOf in E.
  replace (52 - Z.log2 (Zpos p)) with (Zpos k) by lia.
  rewrite Z.mod_mul; [reflexivity|].
  apply Z.pow_nonzero; lia.
Qed.

(** ** Reading and writing rows *)

Lemma hasIban_setBalance (i j : string) (v : float64) (a : Account) :
  hasIban i (setBalance j v a) = hasIban i a.
Proof.
  unfold setBalance. destruct (hasIban j a); reflexivity.
Qed.

Lemma find_setBalance (i j : string) (v : float64) (l : table) :
  find (hasIban i) (map (setBalance j v) l)
  = option_map (setBalance j v) (find (hasIban i) l).
Proof.
  induction l as [|a l IH]; simpl; [reflexivity|].
  rewrite hasIban_setBalance.
  destruct (hasIban i a); [reflexivity | exact IH].
Qed.

Lemma find_hasIban (i : string) (l : table) (r : Account) :
  find (hasIban i) l = Some r -> hasIban i r = true.
Proof.
  intros H. apply find_some in H. tauto.
Qed.

Lemma hasIban_neq (i j : string) (a : Account) :
  i <> j -> hasIban i a = true -> hasIban j a = false.
Proof.
  unfold hasIban. intros Hij Hi.
  apply String.eqb_eq in Hi. apply String.eqb_neq. congruence.
Qed.

(** Writing under [j] leaves what is read under another routing id alone. *)
Lemma balanceOf_setBalance_other (i j : string) (v : float64) (l : table) :
  i <> j ->
  balanceOf (map (setBalance j v) l) i = balanceOf l i.
Proof.
  intros Hij. unfold balanceOf. rewrite find_setBalance.
  destruct (find (hasIban i) l) as [r|] eqn:E; simpl; [|reflexivity].
  unfold setBalance.
  rewrite (hasIban_neq i j r Hij (find_hasIban _ _ _ E)). reflexivity.
Qed.

(** Writing under [i] is read back under [i], provided a row exists. *)
Lemma balanceOf_setBalance_same (i : string) (v : float64) (l : table) :
  balanceOf (map (setBalance i v) l) i
  = match balanceOf l i with Some _ => Some v | None => None end.
Proof.
  unfold balanceOf. rewrite find_setBalance.
  destruct (find (hasIban i) l) as [r|] eqn:E; simpl; [|reflexivity].
  unfold setBalance. rewrite (find_hasIban _ _ _ E). reflexivity.
Qed.

Lemma identity_setBalance (i : string) (v : float64) (r : Account) :
  identity (setBalance i v r) = identity r.
Proof.
  unfold setBalance. destruct (hasIban i r); reflexivity.
Qed.

Lemma map_identity_setBalance (i : string) (v : float64) (db : table) :
  map identity (map (setBalance i v) db) = map identity db.
Proof.
  rewrite map_map. apply map_ext. intros r. apply identity_setBalance.
Qed.

Lemma setBalance_other (i : string) (v : float64) (r : Account) :
  hasIban i r = false -> setBalance i v r = r.
Proof.
  unfold setBalance. intros ->. reflexivity.
Qed.

Lemma IBAN_setBalance (i : string) (v : float64) (r : Account) :
  IBAN (setBalance i v r) = IBAN r.
Proof.
  unfold setBalance. destruct (hasIban i r); reflexivity.
Qed.

Lemma Balance_setBalance (i : string) (v : float64) (r : Account) :
  Balance (setBalance i v r) = if hasIban i r then v else Balance r.
Proof.
  unfold setBalance. destruct (hasIban i r); reflexivity.
Qed.

(** The row left by two writes in a row, under [i] and then under [j]. *)
Lemma rows_written (i j : string) (v w : float64) (r : Account) :
  let r' := setBalance j w (setBalance i v r) in
  identity r' = identity r /\
  Balance r' = (if hasIban j r then w else if hasIban i r then v else Balance r) /\
  (hasIban i r = false -> hasIban j r = false -> r' = r).
Proof.
  cbv zeta. split; [rewrite !identity_setBalance; reflexivity|]. split.
  - rewrite Balance_setBalance, hasIban_setBalance, Balance_setBalance.
    reflexivity.
  - intros Hi Hj. rewrite (setBalance_other i v r Hi).
    apply setBalance_other. exact Hj.
Qed.

Lemma Forall2_rows (P : Account -> Account -> Prop) (f : Account -> Account)
  (db : table) :
  (forall r, In r db -> P r (f r)) -> Forall2 P db (map f db).
Proof.
  induction db as [|a db IH]; intros H; simpl; constructor.
  - apply H. left; reflexivity.
  - apply IH. intros r Hr. apply H. right; exact Hr.
Qed.

Lemma Forall2_same_rows (P : Account -> Account -> Prop) (db : table) :
  (forall r, In r db -> P r r) -> Forall2 P db db.
Proof.
  intros H. rewrite <- (map_id db) at 2. apply Forall2_rows. exact H.
Qed.

(** A routing id that a row carries can be read. *)
Lemma balanceOf_in (db : table) (r : Account) :
  In r db -> balanceOf db (IBAN r) <> None.
Proof.
  unfold balanceOf. intros Hin E.
  destruct (find (hasIban (IBAN r)) db) as [x|] eqn:F; [discriminate|].
  pose proof (find_none _ _ F r Hin) as H.
  unfold hasIban in H. rewrite String.eqb_refl in H. discriminate.
Qed.

(** Under unique routing ids, what is read under the routing id of a row is
    the balance of that row. *)
Lemma balanceOf_unique (db : table) (r : Account) :
  uniqueIbans db -> In r db -> balanceOf db (IBAN r) = Some (Balance r).
Proof.
  unfold uniqueIbans, balanceOf.
  induction db as [|a db IH]; simpl; intros U Hin; [contradiction|].
  inversion U as [|x l Hnot U']; subst.
  destruct Hin as [->|Hin].
  - unfold hasIban. rewrite String.eqb_refl. reflexivity.
  - destruct (hasIban (IBAN r) a) eqn:E.
    + exfalso. apply Hnot. unfold hasIban in E. apply String.eqb_eq in E.
      rewrite E. apply in_map. exact Hin.
    + apply IH; assumption.
Qed.

(** After the two writes of a committed transfer, a row that was written
    holds what is read under its routing id. *)
Lemma written_rows_read_back (i j : string) (v w : float64) (db : table)
  (r : Account) :
  In r db ->
  let r' := setBalance j w (setBalance i v r) in
  let db' := map (setBalance j w) (map (setBalance i v) db) in
  r' = r \/
  ((IBAN r = i \/ IBAN r = j) /\ balanceOf db' (IBAN r) = Some (Balance r')).
Proof.
  intros Hin r' db'.
  destruct (rows_written i j v w r) as (_ & HB & HF). fold r' in HB, HF.
  pose proof (balanceOf_in db r Hin) as Hex.
  destruct (hasIban j r) eqn:Ej.
  - right. unfold hasIban in Ej. apply String.eqb_eq in Ej.
    split; [right; exact Ej|]. rewrite HB, Ej. subst db'.
    rewrite balanceOf_setBalance_same.
    destruct (balanceOf (map (setBalance i v) db) j) eqn:B; [reflexivity|].
    exfalso. rewrite Ej in Hex.
    destruct (String.eqb_spec j i) as [->|Hji].
    + rewrite balanceOf_setBalance_same in B.
      destruct (balanceOf db i); [discriminate | apply Hex; reflexivity].
    + rewrite balanceOf_setBalance_other in B by exact Hji. contradiction.
  - destruct (hasIban i r) eqn:Ei.
    + right. pose proof Ei as Ei'. unfold hasIban in Ei'.
      apply String.eqb_eq in Ei'.
      split; [left; exact Ei'|]. rewrite HB. subst db'.
      assert (Hij : i <> j).
      { intros ->. rewrite Ei in Ej. discriminate. }
      rewrite Ei'. rewrite balanceOf_setBalance_other by exact Hij.
      rewrite balanceOf_setBalance_same.
      rewrite Ei' in Hex.
      destruct (balanceOf db i); [reflexivity | exfalso; apply Hex; reflexivity].
    + left. apply HF; reflexivity.
Qed.

(** ** The four ways through [TransferFunds] *)

Lemma TransferFunds_no_source db fromIban toIban amount :
  balanceOf db fromIban = None ->
  TransferFunds db fromIban toIban amount = mkOutcome db [] (Some ErrNoRows).
Proof.
  unfold balanceOf, TransferFunds, transferStatements, bind, lockAccount.
  simpl. destruct (find (hasIban fromIban) db); simpl; [discriminate|reflexivity].
Qed.

Lemma TransferFunds_insufficient db fromIban toIban amount sb :
  balanceOf db fromIban = Some sb ->
  gtb amount sb = true ->
  TransferFunds db fromIban toIban amount
  = mkOutcome db [RowLocked fromIban] (Some BalanceNotSufficient).
Proof.
  unfold balanceOf, TransferFunds, transferStatements, bind, lockAccount.
  simpl. destruct (find (hasIban fromIban) db) as [r|]; simpl; [|discriminate].
  intros [= <-] ->. reflexivity.
Qed.

Lemma TransferFunds_no_destination db fromIban toIban amount sb :
  balanceOf db fromIban = Some sb ->
  gtb amount sb = false ->
  balanceOf db toIban = None ->
  TransferFunds db fromIban toIban amount
  = mkOutcome db
      [RowLocked fromIban; BalanceWritten fromIban (sub sb amount)]
      (Some ErrNoRows).
Proof.
  unfold balanceOf, TransferFunds, transferStatements, bind, lockAccount,
    updateBalance.
  simpl. destruct (find (hasIban fromIban) db) as [r|]; simpl; [|discriminate].
  intros [= <-] -> Hto. simpl. rewrite find_setBalance.
  destruct (find (hasIban toIban) db); simpl; [discriminate|reflexivity].
Qed.

Lemma TransferFunds_commit db fromIban toIban amount sb :
  balanceOf db fromIban = Some sb ->
  gtb amount sb = false ->
  balanceOf db toIban <> None ->
  let debit := map (setBalance fromIban (sub sb amount)) db in
  exists tb,
    balanceOf debit toIban = Some tb /\
    TransferFunds db fromIban toIban amount
    = mkOutcome (map (setBalance toIban (add tb amount)) debit)
        [RowLocked fromIban; BalanceWritten fromIban (sub sb amount);
         RowLocked toIban; BalanceWritten toIban (add tb amount)]
        None.
Proof.
  unfold balanceOf, TransferFunds, transferStatements, bind, lockAccount,
    updateBalance.
  simpl. destruct (find (hasIban fromIban) db) as [r|]; simpl; [|discriminate].
  intros [= <-] -> Hto. simpl. rewrite find_setBalance.
  destruct (find (hasIban toIban) db) as [r2|]; simpl;
    [|exfalso; apply Hto; reflexivity].
  eexists. split; reflexivity.
Qed.

(** Every call takes one of the four ways. *)
Lemma TransferFunds_paths db fromIban toIban amount :
  let o := TransferFunds db fromIban toIban amount in
  (balanceOf db fromIban = None /\ o = mkOutcome db [] (Some ErrNoRows))
  \/ (exists sb,
        balanceOf db fromIban = Some sb /\ gtb amount sb = true /\
        o = mkOutcome db [RowLocked fromIban] (Some BalanceNotSufficient))
  \/ (exists sb,
        balanceOf db fromIban = Some sb /\ gtb amount sb = false /\
        balanceOf db toIban = None /\
        o = mkOutcome db
              [RowLocked fromIban; BalanceWritten fromIban (sub sb amount)]
              (Some ErrNoRows))
  \/ (exists sb tb,
        balanceOf db fromIban = Some sb /\ gtb amount sb = false /\
        balanceOf (map (setBalance fromIban (sub sb amount)) db) toIban = Some tb /\
        o = mkOutcome
              (map (setBalance toIban (add tb amount))
                   (map (setBalance fromIban (sub sb amount)) db))
              [RowLocked fromIban; BalanceWritten fromIban (sub sb amount);
               RowLocked toIban; BalanceWritten toIban (add tb amount)]
              None).
Proof.
  intros o; subst o.
  destruct (balanceOf db fromIban) as [sb|] eqn:Hs.
  - destruct (gtb amount sb) eqn:Hgt.
    + right; left. exists sb.
      rewrite (TransferFunds_insufficient _ _ _ _ _ Hs Hgt). auto.
    + destruct (balanceOf db toIban) as [tb0|] eqn:Ht.
      * right; right; right.
        destruct (TransferFunds_commit db fromIban toIban amount sb Hs Hgt)
          as (tb & Htb & Ho); [congruence|].
        exists sb, tb. auto.
      * right; right; left. exists sb.
        rewrite (TransferFunds_no_destination _ _ _ _ _ Hs Hgt Ht). auto.
  - left. rewrite (TransferFunds_no_source _ _ _ _ Hs). auto.
Qed.

(** Whatever the way taken, routing ids other than the two named in the
    call read as before. *)
Lemma TransferFunds_frame db fromIban toIban amount i :
  i <> fromIban -> i <> toIban ->
  balanceOf (store (TransferFunds db fromIban toIban amount)) i = balanceOf db i.
Proof.
  intros H1 H2.
  destruct (TransferFunds_paths db fromIban toIban amount)
    as [(_ & ->) | [(sb & _ & _ & ->) | [(sb & _ & _ & _ & ->)
       | (sb & tb & _ & _ & _ & ->)]]]; simpl; try reflexivity.
  rewrite !balanceOf_setBalance_other by assumption. reflexivity.
Qed.

(** The first balance written, if any, is the one of [fromIban]. *)
Lemma TransferFunds_firstUpdate db fromIban toIban amount :
  let d := firstUpdate (trace (TransferFunds db fromIban toIban amount)) in
  d = None \/ d = Some fromIban.
Proof.
  destruct (TransferFunds_paths db fromIban toIban amount)
    as [(_ & ->) | [(sb & _ & _ & ->) | [(sb & _ & _ & _ & ->)
       | (sb & tb & _ & _ & _ & ->)]]]; simpl; auto.
Qed.

(** A failed call leaves the store untouched. *)
Lemma TransferFunds_rollback db fromIban toIban amount e :
  err (TransferFunds db fromIban toIban amount) = Some e ->
  store (TransferFunds db fromIban toIban amount) = db.
Proof.
  destruct (TransferFunds_paths db fromIban toIban amount)
    as [(_ & ->) | [(sb & _ & _ & ->) | [(sb & _ & _ & _ & ->)
       | (sb & tb & _ & _ & _ & ->)]]]; simpl; try reflexivity.
  discriminate.
Qed.

(** ** Transfers between two accounts *)



(** Nothing keeps two rows from carrying one routing id: the table has no
    unique constraint on the IBAN, which [NewAccount] draws at random.  Here
    two rows carry A, with 100 and 7, and one row carries B, with 50.  Each
    statement reads the first row of a routing id and writes all of them: a
    transfer of 30 from A to B leaves 70 in both rows of A, a transfer of
    zero leaves 100 in both, and so does a transfer of 30 from A to A. *)
Example rows_sharing_a_routing_id :
  let db := [mkAccount 1 "" "" "" "A" (ofZ 100) 0;
             mkAccount 2 "" "" "" "A" (ofZ 7) 0;
             mkAccount 3 "" "" "" "B" (ofZ 50) 0] in
  let balances (o : Outcome) := map Balance (store o) in
  ~ uniqueIbans db /\
  err (TransferFunds db "A" "B" (ofZ 30)) = None /\
  balances (TransferFunds db "A" "B" (ofZ 30)) = [ofZ 70; ofZ 70; ofZ 80] /\
  err (TransferFunds db "A" "B" zero) = None /\
  balances (TransferFunds db "A" "B" zero) = [ofZ 100; ofZ 100; ofZ 50] /\
  err (TransferFunds db "A" "A" (ofZ 30)) = None /\
  balances (TransferFunds db "A" "A" (ofZ 30)) = [ofZ 100; ofZ 100; ofZ 50].
Proof.
  cbv zeta. split.
  - intros U. inversion U as [|x l Hnot _]. apply Hnot. left; reflexivity.
  - repeat split; reflexivity.
Qed.




(** ** Lock order *)



(** ** Amounts that are not positive *)

(** C4 as written fails.  A zero amount is not rejected: the transfer
    commits.  Nor is a negative one: sending -80 from A to B commits and
    changes both balances. *)
Lemma invalid_amount_counterexample :
  let o0 := TransferFunds bank "A" "B" zero in
  let o := TransferFunds bank "A" "B" (ofZ (-80)) in
  leb zero zero = true /\ err o0 = None /\
  ltb (ofZ (-80)) zero = true /\ err o = None /\
  balanceOf (store o) "A" <> balanceOf bank "A" /\
  balanceOf (store o) "B" <> balanceOf bank "B".
Proof.
  cbv zeta. repeat split; try reflexivity; vm_compute; discriminate.
Qed.

(** C4, as the code has it for a zero amount: nothing checks the amount.
    Whatever the outcome of a transfer of zero, every routing id reads the
    value it read before, and between existing accounts, the source not
    being overdrawn, the transfer commits instead of being refused.  Row by
    row: no column but the balance changes, a row under a routing id that
    is neither the source's nor the destination's is exactly as it was, and
    any other row is as it was or holds the value that was read under its
    routing id, which is the value of the first row carrying it.  So when no
    two rows share a routing id, no row's balance changes its value. *)
Theorem transfer_zero_amount db fromIban toIban amount :
  is_zero amount = true ->
  let o := TransferFunds db fromIban toIban amount in
  (forall i, sameBalance (balanceOf (store o) i) (balanceOf db i)) /\
  (forall sb,
      balanceOf db fromIban = Some sb -> gtb amount sb = false ->
      balanceOf db toIban <> None ->
      err o = None) /\
  Forall2 (fun r r' =>
             identity r' = identity r /\
             (IBAN r <> fromIban -> IBAN r <> toIban -> r' = r) /\
             (r' = r \/
              sameBalance (Some (Balance r')) (balanceOf db (IBAN r))))
          db (store o) /\
  (uniqueIbans db ->
   Forall2 (fun r r' =>
              identity r' = identity r /\ sameValue (Balance r') (Balance r))
           db (store o)).
Proof.
  intros Hz o; subst o.
  assert (H1 : forall i,
             sameBalance
               (balanceOf (store (TransferFunds db fromIban toIban amount)) i)
               (balanceOf db i));
    [|split; [exact H1 | split]].
  - intros i.
    destruct (TransferFunds_paths db fromIban toIban amount)
      as [(_ & ->) | [(sb & _ & _ & ->) | [(sb & _ & _ & _ & ->)
         | (sb & tb & Hs & _ & Htb & ->)]]]; simpl;
      try apply sameBalance_refl.
    destruct (String.eqb_spec i toIban) as [->|Hit].
    + rewrite balanceOf_setBalance_same, Htb.
      destruct (String.eqb_spec toIban fromIban) as [E|Hne].
      * rewrite E in Htb |- *.
        rewrite balanceOf_setBalance_same, Hs in Htb.
        injection Htb as <-. rewrite Hs. simpl.
        apply add_zero; [exact Hz | apply sub_zero; exact Hz].
      * rewrite balanceOf_setBalance_other in Htb by exact Hne.
        rewrite Htb. simpl. apply add_zero; [exact Hz | left; reflexivity].
    + rewrite balanceOf_setBalance_other by exact Hit.
      destruct (String.eqb_spec i fromIban) as [->|Hif].
      * rewrite balanceOf_setBalance_same, Hs. simpl.
        apply sub_zero; exact Hz.
      * rewrite balanceOf_setBalance_other by exact Hif.
        apply sameBalance_refl.
  - intros sb Hs Hgt Ht.
    destruct (TransferFunds_commit db fromIban toIban amount sb Hs Hgt Ht)
      as (tb & _ & ->). reflexivity.
  - destruct (TransferFunds_paths db fromIban toIban amount)
      as [(_ & E) | [(sb & _ & _ & E) | [(sb & _ & _ & _ & E)
         | (sb & tb & Hs & _ & Htb & E)]]];
      rewrite E in H1 |- *; simpl in H1 |- *.
    4: {
      rewrite map_map.
      assert (R : forall r,
                 In r db ->
                 let r' := setBalance toIban (add tb amount)
                             (setBalance fromIban (sub sb amount) r) in
                 identity r' = identity r /\
                 (IBAN r <> fromIban -> IBAN r <> toIban -> r' = r) /\
                 (r' = r \/
                  sameBalance (Some (Balance r')) (balanceOf db (IBAN r)))).
      { intros r Hin r'.
        destruct (rows_written fromIban toIban (sub sb amount)
                    (add tb amount) r) as (HI & _ & HF). fold r' in HI, HF.
        split; [exact HI|]. split.
        { intros N1 N2. apply HF; apply String.eqb_neq; assumption. }
        destruct (written_rows_read_back fromIban toIban (sub sb amount)
                    (add tb amount) db r Hin) as [Hr|(_ & B)];
          [left; exact Hr|].
        right. specialize (H1 (IBAN r)). rewrite B in H1. exact H1. }
      split.
      - apply Forall2_rows. exact R.
      - intros Hu. apply Forall2_rows. intros r Hin.
        destruct (R r Hin) as (HI & _ & [Hr|HB]); (split; [exact HI|]).
        + rewrite Hr. left; reflexivity.
        + rewrite (balanceOf_unique db r Hu Hin) in HB. exact HB. }
    all: split;
      [apply Forall2_same_rows; intros r _;
       split; [reflexivity | split; [reflexivity | left; reflexivity]]
      |intros _; apply Forall2_same_rows; intros r _;
       split; [reflexivity | left; reflexivity]].
Qed.

Lemma transfer_zero_amount_witness :
  let o := TransferFunds bank "A" "B" zero in
  err o = None /\
  sameBalance (balanceOf (store o) "A") (Some (ofZ 100)) /\
  sameBalance (balanceOf (store o) "B") (Some (ofZ 50)).
Proof.
  destruct (transfer_zero_amount bank "A" "B" zero) as (H1 & H2 & _);
    [reflexivity|].
  split; [apply (H2 (ofZ 100)); [reflexivity | reflexivity | discriminate]|].
  split; [exact (H1 "A") | exact (H1 "B")].
Defined.

(** ** Self-transfers *)

(** C5 as written fails.  Sending 30 from A to A is not rejected: the call
    returns no error and commits. *)
Lemma self_transfer_counterexample :
  let o := TransferFunds bank "A" "A" (ofZ 30) in
  balanceOf bank "A" = Some (ofZ 100) /\
  err o = None /\
  trace o = [RowLocked "A"; BalanceWritten "A" (ofZ 70);
             RowLocked "A"; BalanceWritten "A" (ofZ 100)].
Proof.
  cbv zeta. repeat split; reflexivity.
Qed.

(** C5, as the code has it: source and destination are never compared.  A
    self-transfer fails only for the reasons any transfer fails, an unknown
    routing id or an amount above the balance, and then leaves the store as
    it was; otherwise it commits. *)
Theorem self_transfer_not_rejected db i amount :
  let o := TransferFunds db i i amount in
  match balanceOf db i with
  | None => err o = Some ErrNoRows /\ store o = db
  | Some b =>
      if gtb amount b
      then err o = Some BalanceNotSufficient /\ store o = db
      else err o = None
  end.
Proof.
  intros o; subst o.
  destruct (balanceOf db i) as [b|] eqn:Hb.
  - destruct (gtb amount b) eqn:Hgt.
    + rewrite (TransferFunds_insufficient _ _ _ _ _ Hb Hgt). auto.
    + destruct (TransferFunds_commit db i i amount b Hb Hgt)
        as (tb & _ & ->); [congruence | reflexivity].
  - rewrite (TransferFunds_no_source _ _ _ _ Hb). auto.
Qed.

(** C10 as written fails.  Account A holds 0.9 and sends itself 0.2: the
    call commits, but the credit does not cancel the debit under float64
    rounding, and A no longer holds 0.9. *)
Lemma self_transfer_noop_counterexample :
  let b := ofRatio 9 10 in
  let amount := ofRatio 2 10 in
  let db := [acct "A" b] in
  let o := TransferFunds db "A" "A" amount in
  balanceOf db "A" = Some b /\ leb amount b = true /\
  err o = None /\
  balanceOf (store o) "A" = Some (add (sub b amount) amount) /\
  eqb (add (sub b amount) amount) b = false /\
  ltb (add (sub b amount) amount) b = true.
Proof.
  cbv zeta. repeat split; try reflexivity; vm_compute; reflexivity.
Qed.

(** C10, as the code has it: for a routing id that has a row, read with
    the balance [b], and [amount <= b], a self-transfer commits; the second
    read sees the debited balance, so every row under the routing id ends
    with the float64 value [(b - amount) + amount], which is [b] whenever
    neither operation rounded, as when [b] and the amount are whole numbers
    below 2^53.  Other routing ids read as before, their rows are exactly as
    they were, and no column but the balance has changed. *)
Theorem self_transfer_nets_out db i amount b :
  balanceOf db i = Some b ->
  leb amount b = true ->
  let o := TransferFunds db i i amount in
  err o = None /\
  trace o = [RowLocked i; BalanceWritten i (sub b amount);
             RowLocked i; BalanceWritten i (add (sub b amount) amount)] /\
  balanceOf (store o) i = Some (add (sub b amount) amount) /\
  (forall j, j <> i -> balanceOf (store o) j = balanceOf db j) /\
  Forall2 (fun r r' =>
             identity r' = identity r /\
             (IBAN r = i -> Balance r' = add (sub b amount) amount) /\
             (IBAN r <> i -> r' = r))
          db (store o) /\
  (forall qb qa qd qf,
      exact b = Some qb -> exact amount = Some qa ->
      exact (sub b amount) = Some qd ->
      exact (add (sub b amount) amount) = Some qf ->
      (qd == qb - qa)%Q -> (qf == qd + qa)%Q -> (qf == qb)%Q) /\
  (forall b0 a0 : Z,
      b = ofZ b0 -> amount = ofZ a0 -> 0 <= a0 <= b0 -> b0 < 2 ^ 53 ->
      add (sub b amount) amount = b).
Proof.
  intros Hb Hle o.
  assert (Hgt : gtb amount b = false) by (apply leb_not_gtb; exact Hle).
  destruct (TransferFunds_commit db i i amount b Hb Hgt)
    as (tb & Htb & Ho); [congruence|].
  rewrite balanceOf_setBalance_same, Hb in Htb. injection Htb as <-.
  subst o; rewrite Ho; simpl.
  split; [reflexivity|]. split; [reflexivity|]. split.
  { rewrite !balanceOf_setBalance_same, Hb. reflexivity. }
  split.
  { intros j Hj. rewrite !balanceOf_setBalance_other by exact Hj. reflexivity. }
  split.
  { rewrite map_map. apply Forall2_rows. intros r _.
    destruct (rows_written i i (sub b amount) (add (sub b amount) amount) r)
      as (HI & HB & HF).
    split; [exact HI|]. unfold hasIban in HB, HF.
    destruct (String.eqb_spec (IBAN r) i) as [Ei|Ei]; split;
      intros; try congruence.
    apply HF; reflexivity. }
  split.
  { intros qb qa qd qf _ _ _ _ E1 E2. rewrite E2, E1. ring. }
  intros b0 a0 -> -> Ha Hb0.
  rewrite sub_whole, add_whole by lia. f_equal. lia.
Qed.

Lemma self_transfer_nets_out_witness :
  let o := TransferFunds bank "A" "A" (ofZ 30) in
  err o = None /\ balanceOf (store o) "A" = Some (ofZ 100).
Proof.
  destruct (self_transfer_nets_out bank "A" (ofZ 30) (ofZ 100))
    as (H1 & _ & H3 & _); [reflexivity | reflexivity |].
  split; [exact H1 | exact H3].
Defined.

(** ** Negative balances *)

(** C6 is what the sufficiency check is there for, and the code misses it
    for a negative amount.  A holds 100, B holds 50, and A sends -80 to B:
    the check [amount > balance] passes, the call commits, and B is left
    with -30. *)
Theorem negative_amount_overdraws_destination :
  let amount := ofZ (-80) in
  let o := TransferFunds bank "A" "B" amount in
  (balanceOf bank "A" = Some (ofZ 100) /\ leb zero (ofZ 100) = true) /\
  (balanceOf bank "B" = Some (ofZ 50) /\ leb zero (ofZ 50) = true) /\
  err o = None /\
  balanceOf (store o) "A" = Some (ofZ 180) /\
  balanceOf (store o) "B" = Some (ofZ (-30)) /\
  ltb (ofZ (-30)) zero = true.
Proof.
  cbv zeta. repeat split; reflexivity.
Qed.

Lemma balanceOf_Forall (P : float64 -> Prop) db i b :
  Forall (fun r => P (Balance r)) db -> balanceOf db i = Some b -> P b.
Proof.
  unfold balanceOf. intros H E.
  destruct (find (hasIban i) db) as [r|] eqn:F; [|discriminate].
  injection E as <-. apply find_some in F.
  rewrite Forall_forall in H. apply H. tauto.
Qed.

Lemma noOverdraft_setBalance db i v :
  noOverdraft db -> negative v = false ->
  noOverdraft (map (setBalance i v) db).
Proof.
  unfold noOverdraft. intros H Hv. rewrite Forall_map.
  apply Forall_impl with (2 := H). intros r Hr.
  unfold setBalance. destruct (hasIban i r); [exact Hv | exact Hr].
Qed.

(** The sufficiency check does its work for every amount that is not
    negative: on a table of well-formed balances none of which is below
    zero, no call leaves a balance below zero. *)
Theorem no_overdraft_for_nonnegative_amount db fromIban toIban amount :
  validTable db -> valid amount ->
  negative amount = false ->
  noOverdraft db ->
  noOverdraft (store (TransferFunds db fromIban toIban amount)).
Proof.
  intros Vdb Va Ha Hdb.
  destruct (TransferFunds_paths db fromIban toIban amount)
    as [(_ & ->) | [(sb & _ & _ & ->) | [(sb & _ & _ & _ & ->)
       | (sb & tb & Hs & Hgt & Ht & ->)]]]; simpl; try exact Hdb.
  assert (Hdebit : noOverdraft (map (setBalance fromIban (sub sb amount)) db)).
  { apply noOverdraft_setBalance; [exact Hdb|].
    apply sub_not_negative; try assumption.
    - exact (balanceOf_Forall valid _ _ _ Vdb Hs).
    - exact (balanceOf_Forall (fun b => negative b = false) _ _ _ Hdb Hs). }
  apply noOverdraft_setBalance; [exact Hdebit|].
  apply add_not_negative; [|exact Ha].
  exact (balanceOf_Forall (fun b => negative b = false) _ _ _ Hdebit Ht).
Qed.

(** ** Unknown routing ids *)

(** C7 as written fails on the error returned.  A holds 100 and sends 1000
    to a routing id that does not exist: the sufficiency check comes before
    the destination is read, and the call returns "Balance not sufficient",
    not the no-rows error. *)
Lemma unknown_account_counterexample :
  let o := TransferFunds bank "A" "nobody" (ofZ 1000) in
  balanceOf bank "nobody" = None /\
  err o = Some BalanceNotSufficient /\
  err o <> Some ErrNoRows.
Proof.
  cbv zeta. repeat split; try reflexivity. discriminate.
Qed.

(** C7, as the code has it: when the source or the destination routing id
    does not resolve, the call fails and the store is left as it was, a
    debit already written being discarded with the transaction.  The error
    is the no-rows error, except that an existing source asked for more
    than its balance gets "Balance not sufficient" before the destination
    is looked at. *)
Theorem transfer_unknown_account db fromIban toIban amount :
  balanceOf db fromIban = None \/ balanceOf db toIban = None ->
  let o := TransferFunds db fromIban toIban amount in
  store o = db /\
  (balanceOf db fromIban = None -> err o = Some ErrNoRows /\ trace o = []) /\
  (forall sb, balanceOf db fromIban = Some sb -> gtb amount sb = false ->
     err o = Some ErrNoRows /\
     trace o = [RowLocked fromIban; BalanceWritten fromIban (sub sb amount)]) /\
  (forall sb, balanceOf db fromIban = Some sb -> gtb amount sb = true ->
     err o = Some BalanceNotSufficient /\ trace o = [RowLocked fromIban]).
Proof.
  intros H o; subst o.
  destruct (balanceOf db fromIban) as [sb|] eqn:Hs.
  - destruct H as [H|Ht]; [discriminate|].
    destruct (gtb amount sb) eqn:Hgt.
    + rewrite (TransferFunds_insufficient _ _ _ _ _ Hs Hgt). simpl.
      split; [reflexivity|]. split; [discriminate|].
      split; intros sb' [= <-] Hgt'; [congruence | auto].
    + rewrite (TransferFunds_no_destination _ _ _ _ _ Hs Hgt Ht). simpl.
      split; [reflexivity|]. split; [discriminate|].
      split; intros sb' [= <-] Hgt'; [auto | congruence].
  - rewrite (TransferFunds_no_source _ _ _ _ Hs). simpl.
    split; [reflexivity|]. split; [auto|].
    split; intros sb' [=].
Qed.

Lemma transfer_unknown_account_witness :
  let o := TransferFunds bank "A" "nobody" (ofZ 30) in
  store o = bank /\ err o = Some ErrNoRows /\
  trace o = [RowLocked "A"; BalanceWritten "A" (ofZ 70)].
Proof.
  destruct (transfer_unknown_account bank "A" "nobody" (ofZ 30))
    as (H1 & _ & H3 & _); [right; reflexivity|].
  split; [exact H1|].
  exact (H3 (ofZ 100) eq_refl eq_refl).
Defined.

(** ** The source account of a request *)

(** With claims in the context and a body that decodes to a request, the
    handler calls [TransferFunds] with the IBAN of the claims as the source,
    and with the destination and the amount of the body. *)
Lemma handleTransfer_decoded
  (Body : Type) (Decode : Body -> error + option TransferRequest)
  (db : table) (claims : Claims) (b : Body) (req : TransferRequest) :
  Decode b = inr (Some req) ->
  handleTransfer Decode db (mkRequest (Some claims) b)
  = Returns (TransferFunds db (ClaimsIBAN claims)
                           (ToAccountIban req) (Amount req)).
Proof.
  intros D. unfold handleTransfer; simpl. rewrite D. reflexivity.
Qed.

(** Without claims in the context the handler stops before touching the
    store. *)
Lemma handleTransfer_no_claims
  (Body : Type) (Decode : Body -> error + option TransferRequest) db (b : Body) :
  handleTransfer Decode db (mkRequest None b)
  = Returns (mkOutcome db [] (Some NoClaims)).
Proof. reflexivity. Qed.

(** A body that decodes to a nil request makes the handler panic before it
    reaches the store. *)
Lemma handleTransfer_nil
  (Body : Type) (Decode : Body -> error + option TransferRequest)
  (db : table) (claims : Claims) (b : Body) :
  Decode b = inr None ->
  handleTransfer Decode db (mkRequest (Some claims) b) = Panics db.
Proof.
  intros D. unfold handleTransfer; simpl. rewrite D. reflexivity.
Qed.

(** The handler reads the body only through the decoded destination and
    amount: two bodies that decode to the same two values, whatever else
    they hold, have the same outcome under the same claims. *)
Lemma handleTransfer_reads_destination_and_amount
  (Body : Type) (Decode : Body -> error + option TransferRequest)
  (db : table) (claims : Claims) (b1 b2 : Body) (r1 r2 : TransferRequest) :
  Decode b1 = inr (Some r1) -> Decode b2 = inr (Some r2) ->
  ToAccountIban r1 = ToAccountIban r2 -> Amount r1 = Amount r2 ->
  handleTransfer Decode db (mkRequest (Some claims) b1)
  = handleTransfer Decode db (mkRequest (Some claims) b2).
Proof.
  intros D1 D2 Et Ea.
  rewrite (handleTransfer_decoded _ _ _ _ _ _ D1),
          (handleTransfer_decoded _ _ _ _ _ _ D2), Et, Ea.
  reflexivity.
Qed.

(** A holds the token; the body names C as the source and B as the
    destination, and a positive amount.  A is debited, C is left alone. *)
Example body_cannot_name_source :
  let r := mkRequest (Some (claimsOf "A")) (mkSampleBody "C" "B" (ofZ 30)) in
  exists o,
    handleTransfer sampleDecode bank3 r = Returns o /\
    err o = None /\
    debited bank3 (store o) = ["A"] /\
    map Balance (store o) = [ofZ 70; ofZ 80; ofZ 10].
Proof.
  cbv zeta. eexists. split; [reflexivity|]. repeat split; reflexivity.
Qed.


(** ** The representation of balances *)




(** ** The end-to-end example of the specification *)

Example end_to_end :
  let o1 := TransferFunds bank "A" "B" (ofZ 30) in
  let o2 := TransferFunds (store o1) "B" "A" (ofZ 1000) in
  err o1 = None /\
  balanceOf (store o1) "A" = Some (ofZ 70) /\
  balanceOf (store o1) "B" = Some (ofZ 80) /\
  err o2 = Some BalanceNotSufficient /\
  store o2 = store o1.
Proof.
  cbv zeta. repeat split; reflexivity.
Qed.

(** ** Decimal ids *)

Lemma parseDigits_string_of_uint (d : Decimal.uint) (n : Z) :
  parseDigits (NilEmpty.string_of_uint d) n = Some (valueOf d n).
Proof.
  revert n. induction d; intros n; simpl; try reflexivity; apply IHd.
Qed.

Lemma valueOf_acc (d : Decimal.uint) (acc : positive) :
  valueOf d (Zpos acc) = Zpos (Pos.of_uint_acc d acc).
Proof.
  revert acc. induction d; intros acc; cbn [valueOf Pos.of_uint_acc];
    try reflexivity; rewrite <- IHd; f_equal; lia.
Qed.

Lemma valueOf_of_uint (d : Decimal.uint) :
  valueOf d 0 = Z.of_N (Pos.of_uint d).
Proof.
  induction d; cbn [valueOf Pos.of_uint]; try reflexivity; try exact IHd;
    match goal with
    | |- valueOf _ ?k = _ => change k with (Zpos (Z.to_pos k))
    end; rewrite valueOf_acc; reflexivity.
Qed.

Lemma parseDigits_to_uint (p : positive) :
  parseDigits (NilEmpty.string_of_uint (Pos.to_uint p)) 0 = Some (Zpos p).
Proof.
  rewrite parseDigits_string_of_uint, valueOf_of_uint.
  rewrite DecimalPos.Unsigned.of_to. reflexivity.
Qed.

(** A numeral printed for a positive number starts with a digit and is not
    empty. *)
Lemma string_of_uint_head (d : Decimal.uint) :
  d <> Decimal.Nil ->
  exists c s, NilEmpty.string_of_uint d = String c s /\
              Ascii.eqb c "-" = false /\ Ascii.eqb c "+" = false.
Proof.
  destruct d; intros H; try congruence; simpl; eexists; eexists;
    (split; [reflexivity|split; reflexivity]).
Qed.

Lemma Itoa_pos (p : positive) :
  Itoa (Zpos p) = NilEmpty.string_of_uint (Pos.to_uint p).
Proof.
  unfold Itoa. simpl. unfold NilZero.string_of_uint.
  destruct (Pos.to_uint p) eqn:E; try reflexivity.
  exfalso. exact (Unsigned.to_uint_nonnil p E).
Qed.

Lemma Itoa_neg (p : positive) :
  Itoa (Zneg p) = String "-" (NilEmpty.string_of_uint (Pos.to_uint p)).
Proof.
  unfold Itoa. simpl. unfold NilZero.string_of_uint.
  destruct (Pos.to_uint p) eqn:E; try reflexivity.
  exfalso. exact (Unsigned.to_uint_nonnil p E).
Qed.

Lemma Atoi_Itoa (z : Z) :
  minInt <= z <= maxInt -> Atoi (Itoa z) = Some z.
Proof.
  intros Hz. destruct z as [|p|p].
  - reflexivity.
  - rewrite Itoa_pos.
    destruct (string_of_uint_head (Pos.to_uint p) (Unsigned.to_uint_nonnil p))
      as (c & s & E & Hm & Hp).
    pose proof (parseDigits_to_uint p) as P. rewrite E in P |- *.
    unfold Atoi. rewrite Hm, Hp. cbn [orb]. rewrite P. cbn iota.
    replace ((minInt <=? Zpos p) && (Zpos p <=? maxInt)) with true; [reflexivity|].
    symmetry. apply andb_true_intro. split; apply Z.leb_le; lia.
  - rewrite Itoa_neg.
    destruct (string_of_uint_head (Pos.to_uint p) (Unsigned.to_uint_nonnil p))
      as (c & s & E & Hm & Hp).
    pose proof (parseDigits_to_uint p) as P. rewrite E in P |- *.
    unfold Atoi. change (Ascii.eqb "-" "-") with true. cbn [orb].
    rewrite P. cbn iota.
    change (- Zpos p) with (Zneg p).
    replace ((minInt <=? Zneg p) && (Zneg p <=? maxInt)) with true; [reflexivity|].
    symmetry. apply andb_true_intro. split; apply Z.leb_le; lia.
Qed.

(** X1: an id written by [strconv.Itoa] is read back by [getId]: for every
    [int] value, a request whose id variable holds its decimal text yields
    that value. *)
Theorem getId_Itoa (Body : Type) (r : HTTPRequest Body) (z : Z) :
  minInt <= z <= maxInt ->
  varOf (vars r) "id" = Itoa z ->
  getId r = inr z.
Proof.
  intros Hz Hv. unfold getId. rewrite Hv, (Atoi_Itoa z Hz). reflexivity.
Qed.

Lemma getId_Itoa_witness :
  getId (mkHTTPRequest "" [("id", Itoa (-1205))] None tt) = inr (-1205).
Proof.
  apply (getId_Itoa unit (mkHTTPRequest "" [("id", Itoa (-1205))] None tt) (-1205)).
  - unfold minInt, maxInt. lia.
  - reflexivity.
Defined.

(** ** Looking accounts up and deleting them *)

Lemma find_hasId_deleted (db : table) (id : Z) :
  find (hasId id) (filter (fun r => negb (hasId id r)) db) = None.
Proof.
  induction db as [|r db IH]; simpl; [reflexivity|].
  destruct (hasId id r) eqn:E; simpl; [exact IH|].
  rewrite E. exact IH.
Qed.

Lemma find_hasId_other (db : table) (id id' : Z) :
  id' <> id ->
  find (hasId id') (filter (fun r => negb (hasId id r)) db)
  = find (hasId id') db.
Proof.
  intros Hne. induction db as [|r db IH]; simpl; [reflexivity|].
  unfold hasId in *.
  destruct (Z.eqb_spec (ID r) id) as [E|E]; simpl.
  - destruct (Z.eqb_spec (ID r) id') as [E'|E']; [congruence | exact IH].
  - destruct (Z.eqb_spec (ID r) id'); [reflexivity | exact IH].
Qed.

Lemma filter_absent (db : table) (id : Z) :
  find (hasId id) db = None ->
  filter (fun r => negb (hasId id r)) db = db.
Proof.
  induction db as [|r db IH]; simpl; [reflexivity|].
  destruct (hasId id r); simpl; [discriminate|].
  intros H. f_equal. exact (IH H).
Qed.

Lemma find_hasIban_none (db : table) (i : string) :
  find (hasIban i) db = None <-> ~ In i (map IBAN db).
Proof.
  induction db as [|r db IH]; simpl; [tauto|].
  unfold hasIban at 1.
  destruct (String.eqb_spec (IBAN r) i) as [E|E].
  - split; [discriminate | intros H; exfalso; apply H; left; exact E].
  - rewrite IH. tauto.
Qed.

(** X2: once [DeleteAccount] has run for an id, [GetAccountById] no longer
    finds it and answers "Account with id N not found"; every other id is
    looked up as before. *)
Theorem delete_then_get (pqOutOfRange : Z -> error) (db : table) (id : Z) :
  inInteger id = true ->
  let db' := fst (DeleteAccount pqOutOfRange db id) in
  snd (DeleteAccount pqOutOfRange db id) = None /\
  GetAccountById pqOutOfRange db' id = inl (accountIdNotFound id) /\
  (forall id', id' <> id ->
     GetAccountById pqOutOfRange db' id' = GetAccountById pqOutOfRange db id').
Proof.
  intros Hid. unfold DeleteAccount, GetAccountById. rewrite Hid. simpl.
  split; [reflexivity|]. split.
  - rewrite find_hasId_deleted. reflexivity.
  - intros id' Hne. destruct (inInteger id'); [|reflexivity].
    rewrite find_hasId_other by exact Hne. reflexivity.
Qed.

(** X3: a deleted account can neither be found by its IBAN, send nor
    receive.  When every row under a routing id carried the deleted id,
    [GetAccountByIban] answers not found, a transfer from it fails with the
    no-rows error, a transfer to it fails as well, and both leave the store
    as it is. *)
Theorem deleted_account_cannot_transfer (pqOutOfRange : Z -> error)
  (db : table) (id : Z) (i : string) :
  inInteger id = true ->
  (forall r, In r db -> IBAN r = i -> ID r = id) ->
  let db' := fst (DeleteAccount pqOutOfRange db id) in
  GetAccountByIban db' i = inl (accountIbanNotFound i) /\
  (forall toIban amount,
      TransferFunds db' i toIban amount = mkOutcome db' [] (Some ErrNoRows)) /\
  (forall fromIban amount,
      err (TransferFunds db' fromIban i amount) <> None /\
      store (TransferFunds db' fromIban i amount) = db').
Proof.
  intros Hid Hrows. unfold DeleteAccount. rewrite Hid. simpl.
  set (db' := filter (fun r => negb (hasId id r)) db).
  assert (Hnone : balanceOf db' i = None).
  { unfold balanceOf.
    destruct (find (hasIban i) db') as [r|] eqn:E; [|reflexivity].
    exfalso. apply find_some in E. destruct E as [Hin Hi].
    apply filter_In in Hin. destruct Hin as [Hin Hneg].
    apply String.eqb_eq in Hi.
    pose proof (Hrows r Hin Hi) as Hr. unfold hasId in Hneg.
    rewrite Hr, Z.eqb_refl in Hneg. discriminate. }
  split.
  { unfold GetAccountByIban. unfold balanceOf in Hnone.
    destruct (find (hasIban i) db'); [discriminate | reflexivity]. }
  split.
  - intros toIban amount. apply TransferFunds_no_source. exact Hnone.
  - intros fromIban amount.
    destruct (TransferFunds_paths db' fromIban i amount)
      as [(_ & ->) | [(sb & _ & _ & ->) | [(sb & _ & _ & _ & ->)
         | (sb & tb & Hs & _ & Ht & _)]]]; simpl;
      try (split; [discriminate | reflexivity]).
    exfalso.
    destruct (String.eqb_spec i fromIban) as [->|Hne].
    + congruence.
    + rewrite balanceOf_setBalance_other in Ht by exact Hne. congruence.
Qed.

Lemma delete_then_get_witness :
  let pq := fun _ : Z => Errorf "out of range" in
  let db := [mkAccount 1 "" "" "" "A" (ofZ 100) 0;
             mkAccount 2 "" "" "" "B" (ofZ 50) 0] in
  GetAccountById pq (fst (DeleteAccount pq db 1)) 1
  = inl (Errorf "Account with id 1 not found") /\
  GetAccountById pq (fst (DeleteAccount pq db 1)) 2 = GetAccountById pq db 2.
Proof.
  destruct (delete_then_get (fun _ : Z => Errorf "out of range")
              [mkAccount 1 "" "" "" "A" (ofZ 100) 0;
               mkAccount 2 "" "" "" "B" (ofZ 50) 0] 1 eq_refl)
    as (_ & H2 & H3).
  split; [exact H2 | apply H3; discriminate].
Defined.

Lemma deleted_account_cannot_transfer_witness :
  let pq := fun _ : Z => Errorf "out of range" in
  let db := [mkAccount 1 "" "" "" "A" (ofZ 100) 0;
             mkAccount 2 "" "" "" "B" (ofZ 50) 0] in
  let db' := fst (DeleteAccount pq db 1) in
  TransferFunds db' "A" "B" (ofZ 30) = mkOutcome db' [] (Some ErrNoRows) /\
  store (TransferFunds db' "B" "A" (ofZ 30)) = db'.
Proof.
  destruct (deleted_account_cannot_transfer (fun _ : Z => Errorf "out of range")
              [mkAccount 1 "" "" "" "A" (ofZ 100) 0;
               mkAccount 2 "" "" "" "B" (ofZ 50) 0] 1 "A" eq_refl)
    as (_ & H2 & H3).
  - intros r [<-|[<-|[]]]; [reflexivity | discriminate].
  - split; [apply H2 | apply H3].
Defined.

(** ** Rows under a transfer *)

Lemma TransferFunds_identity db fromIban toIban amount :
  map identity (store (TransferFunds db fromIban toIban amount))
  = map identity db.
Proof.
  destruct (TransferFunds_paths db fromIban toIban amount)
    as [(_ & ->) | [(sb & _ & _ & ->) | [(sb & _ & _ & _ & ->)
       | (sb & tb & _ & _ & _ & ->)]]]; simpl; try reflexivity.
  rewrite !map_identity_setBalance. reflexivity.
Qed.

(** X4: whatever its outcome, [TransferFunds] adds, removes and reorders no
    row and changes no column but the balance; a row whose routing id is
    neither the source's nor the destination's is left exactly as it was. *)
Theorem transfer_keeps_rows db fromIban toIban amount :
  let o := TransferFunds db fromIban toIban amount in
  map identity (store o) = map identity db /\
  Forall2 (fun r r' => IBAN r <> fromIban -> IBAN r <> toIban -> r' = r)
          db (store o).
Proof.
  intros o; subst o.
  assert (R : forall l : table,
             Forall2 (fun r r' => IBAN r <> fromIban -> IBAN r <> toIban -> r' = r)
                     l l).
  { induction l; constructor; auto. }
  destruct (TransferFunds_paths db fromIban toIban amount)
    as [(_ & ->) | [(sb & _ & _ & ->) | [(sb & _ & _ & _ & ->)
       | (sb & tb & _ & _ & _ & ->)]]]; simpl;
    try (split; [reflexivity | apply R]).
  split.
  - rewrite !map_identity_setBalance. reflexivity.
  - rewrite map_map. clear R.
    induction db as [|r db IH]; simpl; constructor; [|exact IH].
    intros H1 H2.
    assert (E1 : hasIban fromIban r = false)
      by (apply String.eqb_neq; exact H1).
    rewrite (setBalance_other _ _ _ E1).
    apply setBalance_other. apply String.eqb_neq; exact H2.
Qed.

(** X5: the two updates reach every row of their routing id.  After a
    committed transfer between different routing ids, each row under the
    source's holds the debited balance and each row under the destination's
    holds the credited one, computed from the first row read: rows that
    share a routing id are overwritten together. *)
Theorem transfer_writes_every_row db fromIban toIban amount :
  fromIban <> toIban ->
  err (TransferFunds db fromIban toIban amount) = None ->
  exists sb tb,
    balanceOf db fromIban = Some sb /\ balanceOf db toIban = Some tb /\
    Forall (fun r =>
              (IBAN r = fromIban -> Balance r = sub sb amount) /\
              (IBAN r = toIban -> Balance r = add tb amount))
           (store (TransferFunds db fromIban toIban amount)).
Proof.
  intros Hne.
  destruct (TransferFunds_paths db fromIban toIban amount)
    as [(_ & ->) | [(sb & _ & _ & ->) | [(sb & _ & _ & _ & ->)
       | (sb & tb & Hs & _ & Ht & ->)]]]; simpl; try discriminate.
  intros _. exists sb, tb. split; [exact Hs|].
  rewrite balanceOf_setBalance_other in Ht by congruence.
  split; [exact Ht|].
  apply Forall_forall. intros r'' Hin.
  apply in_map_iff in Hin. destruct Hin as (r' & <- & Hin).
  apply in_map_iff in Hin. destruct Hin as (r & <- & _).
  rewrite !IBAN_setBalance, !Balance_setBalance, hasIban_setBalance.
  unfold hasIban.
  destruct (String.eqb_spec (IBAN r) toIban) as [Et|Et];
    destruct (String.eqb_spec (IBAN r) fromIban) as [Ef|Ef];
    split; congruence.
Qed.

(** Two rows share the routing id B: a transfer of 30 from A credits both,
    each with the balance of the first plus 30. *)
Lemma transfer_writes_every_row_witness :
  let db := [acct "A" (ofZ 100); acct "B" (ofZ 50); acct "B" (ofZ 7)] in
  exists sb tb,
    balanceOf db "A" = Some sb /\ balanceOf db "B" = Some tb /\
    Forall (fun r =>
              (IBAN r = "A" -> Balance r = sub sb (ofZ 30)) /\
              (IBAN r = "B" -> Balance r = add tb (ofZ 30)))
           (store (TransferFunds db "A" "B" (ofZ 30))).
Proof.
  apply (transfer_writes_every_row
           [acct "A" (ofZ 100); acct "B" (ofZ 50); acct "B" (ofZ 7)]
           "A" "B" (ofZ 30)).
  - discriminate.
  - reflexivity.
Defined.

(** ** Whole balances under transfers *)

Lemma valid_ofZ (z : Z) : 0 <= z < 2 ^ 53 -> valid (ofZ z).
Proof.
  intros Hz. unfold valid. rewrite (ofZ_whole z Hz).
  destruct z as [|p|p]; [reflexivity| |lia].
  pose proof (log2_below (Zpos p) ltac:(lia)) as L.
  unfold valid_binary, bounded, canonical_mantissa.
  rewrite digits2_pos_size, mantissaOf_size by lia.
  unfold exponentOf, fexp, emin, prec, emax.
  apply andb_true_intro. split; [apply Z.eqb_eq | apply Z.leb_le]; lia.
Qed.

Lemma negative_ofZ (z : Z) : 0 <= z < 2 ^ 53 -> negative (ofZ z) = false.
Proof.
  intros Hz. unfold negative, ltb, SFltb.
  change zero with (ofZ 0).
  rewrite compare_whole by lia.
  destruct (Z.compare_spec z 0); try reflexivity. lia.
Qed.

Lemma gtb_whole (a s : Z) :
  0 <= a < 2 ^ 53 -> 0 <= s < 2 ^ 53 ->
  gtb (ofZ a) (ofZ s) = (s <? a).
Proof.
  intros Ha Hs. unfold gtb. rewrite compare_whole by lia.
  rewrite Z.ltb_antisym, Z.leb_compare.
  destruct (a ?= s); reflexivity.
Qed.

Lemma total_nonneg db zs : ledger db zs -> 0 <= total zs.
Proof.
  induction 1 as [|r z db zs [_ Hz] _ IH]; simpl; lia.
Qed.

Lemma map_setBalance_absent (i : string) (v : float64) (db : table) :
  ~ In i (map IBAN db) -> map (setBalance i v) db = db.
Proof.
  induction db as [|r db IH]; simpl; [reflexivity|].
  intros H. f_equal.
  - apply setBalance_other. apply String.eqb_neq. tauto.
  - apply IH. tauto.
Qed.

(** Under unique routing ids a write changes one entry of the ledger. *)
Lemma ledger_write db zs i b :
  uniqueIbans db -> ledger db zs -> balanceOf db i = Some b ->
  exists z,
    b = ofZ z /\ 0 <= z <= total zs /\
    forall z', 0 <= z' ->
      exists zs',
        ledger (map (setBalance i (ofZ z')) db) zs' /\
        total zs' = total zs - z + z'.
Proof.
  intros U L. revert U. induction L as [|r z db zs [Hb Hz] L IH]; intros U Hi.
  - discriminate.
  - unfold uniqueIbans in U. simpl in U. inversion U as [|? ? Hnot U']; subst.
    pose proof (total_nonneg db zs L) as Ht.
    unfold balanceOf in Hi. simpl in Hi.
    destruct (hasIban i r) eqn:E.
    + simpl in Hi. injection Hi as <-.
      exists z. split; [exact Hb|]. split; [simpl; lia|].
      intros z' Hz'. exists (z' :: zs). split; [|simpl; lia].
      simpl. unfold hasIban in E. apply String.eqb_eq in E.
      rewrite map_setBalance_absent by congruence.
      constructor; [|exact L].
      unfold holds. rewrite Balance_setBalance. unfold hasIban.
      rewrite E, String.eqb_refl. auto.
    + destruct (IH U' Hi) as (z0 & Hb0 & Hz0 & Hw).
      exists z0. split; [exact Hb0|]. split; [simpl; lia|].
      intros z' Hz'. destruct (Hw z' Hz') as (zs' & L' & T').
      exists (z :: zs'). split; [|simpl; lia].
      simpl. rewrite (setBalance_other _ _ _ E).
      constructor; [split; assumption | exact L'].
Qed.

Lemma uniqueIbans_setBalance (i : string) (v : float64) (db : table) :
  uniqueIbans db -> uniqueIbans (map (setBalance i v) db).
Proof.
  unfold uniqueIbans. rewrite map_map. intros U.
  rewrite (map_ext (fun r => IBAN (setBalance i v r)) IBAN); [exact U|].
  intros r. apply IBAN_setBalance.
Qed.

Lemma transfer_keeps_ledger db zs fromIban toIban a :
  uniqueIbans db -> ledger db zs -> total zs < 2 ^ 53 -> 0 <= a < 2 ^ 53 ->
  let db' := store (TransferFunds db fromIban toIban (ofZ a)) in
  uniqueIbans db' /\
  exists zs', ledger db' zs' /\ total zs' = total zs.
Proof.
  intros U L T Ha db'; subst db'.
  destruct (TransferFunds_paths db fromIban toIban (ofZ a))
    as [(_ & ->) | [(sb & _ & _ & ->) | [(sb & _ & _ & _ & ->)
       | (sb & tb & Hs & Hgt & Ht & ->)]]]; simpl;
    try (split; [exact U | exists zs; auto]).
  destruct (ledger_write db zs fromIban sb U L Hs) as (s & -> & Hs' & Ws).
  rewrite gtb_whole in Hgt by lia. apply Z.ltb_ge in Hgt.
  rewrite sub_whole in * by lia.
  destruct (Ws (s - a) ltac:(lia)) as (zs1 & L1 & T1).
  pose proof (uniqueIbans_setBalance fromIban (ofZ (s - a)) db U) as U1.
  destruct (ledger_write _ zs1 toIban tb U1 L1 Ht) as (t & -> & Ht' & Wt).
  rewrite add_whole by lia.
  destruct (Wt (t + a) ltac:(lia)) as (zs2 & L2 & T2).
  split; [apply uniqueIbans_setBalance; exact U1|].
  exists zs2. split; [exact L2 | lia].
Qed.

(** X6: money is conserved across any sequence of whole transfers.  On a
    table with unique routing ids whose balances are whole and not negative,
    with a total below 2^53, whatever whole amounts below 2^53 are asked for
    and between whatever routing ids, the balances stay whole and not
    negative and their total stays the same. *)
Theorem whole_transfers_conserve_total db zs ts :
  uniqueIbans db -> ledger db zs -> total zs < 2 ^ 53 ->
  Forall (fun t => 0 <= snd t < 2 ^ 53) ts ->
  exists zs',
    ledger (runTransfers db ts) zs' /\ total zs' = total zs /\
    map identity (runTransfers db ts) = map identity db.
Proof.
  intros U L T Hts. revert db zs U L T.
  induction Hts as [|[[f t] a] ts Ha _ IH]; intros db zs U L T; simpl.
  - exists zs. auto.
  - simpl in Ha.
    destruct (transfer_keeps_ledger db zs f t a U L T Ha) as (U' & zs1 & L1 & T1).
    destruct (IH _ zs1 U' L1 ltac:(lia)) as (zs' & L' & T' & I').
    exists zs'. split; [exact L'|]. split; [lia|].
    rewrite I'. apply TransferFunds_identity.
Qed.

Lemma uniqueIbans_bank : uniqueIbans bank.
Proof.
  unfold uniqueIbans, bank. simpl.
  constructor; [intros [H|[]]; discriminate|].
  constructor; [intros []|constructor].
Qed.

Lemma ledger_bank : ledger bank [100; 50].
Proof.
  unfold ledger, bank.
  constructor; [split; [reflexivity | lia]|].
  constructor; [split; [reflexivity | lia]|constructor].
Qed.

Lemma whole_transfers_conserve_total_witness :
  exists zs',
    ledger (runTransfers bank [("A", "B", 30); ("B", "A", 1000); ("A", "A", 5)])
           zs' /\
    total zs' = 150.
Proof.
  destruct (whole_transfers_conserve_total bank [100; 50]
              [("A", "B", 30); ("B", "A", 1000); ("A", "A", 5)])
    as (zs' & L & T & _).
  - exact uniqueIbans_bank.
  - exact ledger_bank.
  - simpl. lia.
  - repeat constructor; simpl; lia.
  - exists zs'. split; [exact L | exact T].
Defined.






(** ** New accounts *)

(** X8: an account as [NewAccount] builds it.  When the password hashes,
    the balance is the whole number drawn, a well-formed float64 that is
    not negative, the routing id is the decimal text of its draw, and the
    password kept is the hash; when it does not, no account is built and
    the error is the one of the hash. *)
Theorem NewAccount_opens_whole
  (HashPassword : string -> error + string)
  (firstName lastName password : string) (idDraw ibanDraw balanceDraw now : Z) :
  0 <= ibanDraw < 1000000 -> 0 <= balanceDraw < 1000000 ->
  match NewAccount HashPassword firstName lastName password
                   idDraw ibanDraw balanceDraw now with
  | inl e => HashPassword password = inl e
  | inr a =>
      holds a balanceDraw /\ valid (Balance a) /\
      negative (Balance a) = false /\ is_integral (Balance a) = true /\
      Atoi (IBAN a) = Some ibanDraw /\
      (exists h, HashPassword password = inr h /\ EncryptedPassword a = h)
  end.
Proof.
  intros Hi Hb. unfold NewAccount.
  destruct (HashPassword password) as [e|h]; [reflexivity|].
  assert (B : 0 <= balanceDraw < 2 ^ 53) by lia.
  simpl. unfold holds. simpl.
  split; [split; [reflexivity | lia]|].
  split; [apply valid_ofZ; exact B|].
  split; [apply negative_ofZ; exact B|].
  split; [apply is_integral_ofZ; exact B|].
  split; [apply Atoi_Itoa; unfold minInt, maxInt; lia|].
  exists h. auto.
Qed.

Lemma NewAccount_opens_whole_witness :
  match NewAccount (fun p => inr ("hash of " ++ p)) "Ada" "Lovelace" "secret"
                   17 424242 1000 0 with
  | inl _ => False
  | inr a => holds a 1000 /\ Atoi (IBAN a) = Some 424242
  end.
Proof.
  pose proof (NewAccount_opens_whole (fun p => inr ("hash of " ++ p))
                "Ada" "Lovelace" "secret" 17 424242 1000 0
                ltac:(lia) ltac:(lia)) as H.
  simpl in H |- *. destruct H as (H1 & _ & _ & _ & H5 & _).
  split; [exact H1 | exact H5].
Defined.

(** ** The Authorization header *)

Lemma Split_nonempty (s : string) (sep : ascii) : Split s sep <> [].
Proof.
  destruct s as [|c s]; simpl; [discriminate|].
  destruct (Ascii.eqb c sep); [discriminate|].
  destruct (Split s sep); discriminate.
Qed.

Lemma Split_without (s : string) (sep : ascii) :
  without sep s = true -> Split s sep = [s].
Proof.
  induction s as [|c s IH]; simpl; [reflexivity|].
  intros H. apply andb_prop in H. destruct H as [Hc Hs].
  apply negb_true_iff in Hc. rewrite Hc, (IH Hs). reflexivity.
Qed.

Lemma Split_one (s b : string) (sep : ascii) :
  Split s sep = [b] -> s = b /\ without sep b = true.
Proof.
  revert b. induction s as [|c s IH]; simpl; intros b H.
  - injection H as <-. auto.
  - destruct (Ascii.eqb c sep) eqn:E.
    + injection H as _ H. exfalso. exact (Split_nonempty s sep H).
    + destruct (Split s sep) as [|h t] eqn:S;
        [exfalso; exact (Split_nonempty s sep S)|].
      injection H as <- ->. destruct (IH h eq_refl) as [-> Hw].
      simpl. rewrite E, Hw. auto.
Qed.

Lemma Split_two (s a b : string) (sep : ascii) :
  Split s sep = [a; b] ->
  s = a ++ String sep b /\ without sep a = true /\ without sep b = true.
Proof.
  revert a. induction s as [|c s IH]; simpl; intros a H.
  - discriminate.
  - destruct (Ascii.eqb_spec c sep) as [->|E].
    + injection H as <- H. destruct (Split_one s b sep H) as [-> Hw]. auto.
    + destruct (Split s sep) as [|h t] eqn:S;
        [exfalso; exact (Split_nonempty s sep S)|].
      injection H as <- ->. destruct (IH h eq_refl) as (-> & Ha & Hb).
      simpl. apply Ascii.eqb_neq in E. rewrite E, Ha. auto.
Qed.

Lemma Split_join (a b : string) (sep : ascii) :
  without sep a = true -> without sep b = true ->
  Split (a ++ String sep b) sep = [a; b].
Proof.
  intros Ha Hb. induction a as [|c a IH]; simpl.
  - rewrite Ascii.eqb_refl, (Split_without b sep Hb). reflexivity.
  - simpl in Ha. apply andb_prop in Ha. destruct Ha as [Hc Ha].
    apply negb_true_iff in Hc. rewrite Hc, (IH Ha). reflexivity.
Qed.

(** The test of the middleware on the header passes exactly for the word
    Bearer, one space, and a token without a space. *)
Lemma bearer_header (h : string) :
  negb (Nat.eqb (List.length (Split h " ")) 2)
  || negb (String.eqb (nth 0 (Split h " ") "") "Bearer") = false
  <-> exists tok, h = "Bearer " ++ tok /\ without " " tok = true
                  /\ nth 1 (Split h " ") "" = tok.
Proof.
  split.
  - intros H. apply orb_false_elim in H. destruct H as [H1 H2].
    apply negb_false_iff in H1, H2.
    apply Nat.eqb_eq in H1. apply String.eqb_eq in H2.
    destruct (Split h " ") as [|a [|b [|c l]]] eqn:S; try discriminate.
    simpl in H2. subst a.
    destruct (Split_two h "Bearer" b " " S) as (-> & _ & Hb).
    exists b. auto.
  - intros (tok & -> & Hw & _).
    change ("Bearer " ++ tok) with ("Bearer" ++ String " " tok).
    rewrite (Split_join "Bearer" tok " " eq_refl Hw). reflexivity.
Qed.

(** ** The routes *)

(** X9: the middleware lets a request through exactly when its header is the
    word Bearer, one space and a token without a space that [ValidateToken]
    accepts; the wrapped handler then runs with the claims of that token.
    Any other request is answered 400 without the handler being run, so the
    store stays as it was. *)
Theorem middleware_gate (marshalAccount : Account -> option error)
  (ValidateToken : string -> error + Claims) (Body : Type)
  (next : HandlerFunc Body) (db : table) (r : HTTPRequest Body) :
  let out := validateTokenMiddleware marshalAccount ValidateToken next
               db NewRecorder r in
  (forall tok claims,
      authorization r = "Bearer " ++ tok -> without " " tok = true ->
      ValidateToken tok = inr claims ->
      out = next db NewRecorder
                 (mkHTTPRequest (authorization r) (vars r) (Some claims)
                                (requestBody r))) /\
  ((forall tok claims,
       authorization r = "Bearer " ++ tok -> without " " tok = true ->
       ValidateToken tok <> inr claims) ->
   exists msg, out = (db, badRequest msg)).
Proof.
  intros out; subst out. unfold validateTokenMiddleware. split.
  - intros tok claims Hh Hw Hv. rewrite Hh.
    change ("Bearer " ++ tok) with ("Bearer" ++ String " " tok).
    rewrite (Split_join "Bearer" tok " " eq_refl Hw).
    simpl. rewrite Hv. reflexivity.
  - intros Hno.
    destruct (String.eqb (authorization r) "");
      [eexists; reflexivity|].
    destruct (negb (Nat.eqb (Datatypes.length (Split (authorization r) " ")) 2)
              || negb (String.eqb (nth 0 (Split (authorization r) " ") "") "Bearer"))
      eqn:E; [eexists; reflexivity|].
    apply bearer_header in E. destruct E as (tok & Hh & Hw & Hn).
    rewrite Hn.
    destruct (ValidateToken tok) as [e|claims] eqn:V;
      [eexists; reflexivity|].
    exfalso. exact (Hno tok claims Hh Hw V).
Qed.

(** Around a handler that returns, the wrappers for a handler that may
    panic are the ones for a handler that returns. *)
Lemma makeHTTPHandleFunc_returns (marshalAccount : Account -> option error)
  (Body : Type) (f : apiFunc Body) db w (r : HTTPRequest Body) :
  makeHTTPHandleFuncOrPanic marshalAccount
    (fun db' w' r' => Returns (f db' w' r')) db w r
  = Returns (makeHTTPHandleFunc marshalAccount f db w r).
Proof.
  unfold makeHTTPHandleFuncOrPanic, makeHTTPHandleFunc.
  destruct (f db w r) as [[db' w'] [e|]]; reflexivity.
Qed.

Lemma validateTokenMiddleware_returns (marshalAccount : Account -> option error)
  (ValidateToken : string -> error + Claims) (Body : Type)
  (next : HandlerFunc Body) db w (r : HTTPRequest Body) :
  validateTokenMiddlewareOrPanic marshalAccount ValidateToken
    (fun db' w' r' => Returns (next db' w' r')) db w r
  = Returns (validateTokenMiddleware marshalAccount ValidateToken next db w r).
Proof.
  unfold validateTokenMiddlewareOrPanic, validateTokenMiddleware.
  destruct (String.eqb (authorization r) ""); [reflexivity|].
  destruct (negb (Nat.eqb (Datatypes.length (Split (authorization r) " ")) 2)
            || negb (String.eqb (nth 0 (Split (authorization r) " ") "") "Bearer"));
    [reflexivity|].
  destruct (ValidateToken _); reflexivity.
Qed.

(** What the transfer route does behind the middleware, for a request whose
    header carries a token that [ValidateToken] accepts. *)
Lemma transferRoute_accepted (marshalAccount : Account -> option error)
  (ValidateToken : string -> error + Claims) (Body : Type)
  (DecodeTransfer : Body -> error + option TransferRequest)
  (db : table) (r : HTTPRequest Body) (tok : string) (claims : Claims) :
  authorization r = "Bearer " ++ tok -> without " " tok = true ->
  ValidateToken tok = inr claims ->
  transferRoute marshalAccount ValidateToken DecodeTransfer db NewRecorder r
  = match DecodeTransfer (requestBody r) with
    | inl e => Returns (db, badRequest (errorString e))
    | inr None => Panics db
    | inr (Some req) =>
        let o := TransferFunds db (ClaimsIBAN claims)
                               (ToAccountIban req) (Amount req) in
        match err o with
        | Some e => Returns (store o, badRequest (errorString e))
        | None =>
            Returns (store o, mkResponseWriter (Some StatusOK) [StatusSuccess])
        end
    end.
Proof.
  intros Hh Hw V.
  unfold transferRoute, validateTokenMiddlewareOrPanic. rewrite Hh.
  change ("Bearer " ++ tok) with ("Bearer" ++ String " " tok).
  rewrite (Split_join "Bearer" tok " " eq_refl Hw).
  simpl. rewrite V.
  unfold makeHTTPHandleFuncOrPanic, handleTransferJSON, handleTransfer. simpl.
  destruct (DecodeTransfer (requestBody r)) as [e|[req|]]; simpl;
    try reflexivity.
  destruct (err (TransferFunds db (ClaimsIBAN claims) (ToAccountIban req)
                               (Amount req))); reflexivity.
Qed.

(** X10: the transfer route answers 200 exactly for a committed transfer out
    of the account of the token's claims; it panics, writing no response
    and leaving the store as it was, exactly when a request with an accepted
    token carries a body that decodes to a nil request; and it answers 400
    otherwise, the store then being as it was. *)
Theorem transfer_route (marshalAccount : Account -> option error)
  (ValidateToken : string -> error + Claims) (Body : Type)
  (DecodeTransfer : Body -> error + option TransferRequest)
  (db : table) (r : HTTPRequest Body) :
  let out := transferRoute marshalAccount ValidateToken DecodeTransfer
               db NewRecorder r in
  ((exists msg, out = Returns (db, badRequest msg))
   \/ (exists tok claims req,
         authorization r = "Bearer " ++ tok /\ without " " tok = true /\
         ValidateToken tok = inr claims /\
         DecodeTransfer (requestBody r) = inr (Some req) /\
         let o := TransferFunds db (ClaimsIBAN claims)
                                (ToAccountIban req) (Amount req) in
         err o = None /\
         out = Returns (store o,
                        mkResponseWriter (Some StatusOK) [StatusSuccess]))
   \/ (exists tok claims,
         authorization r = "Bearer " ++ tok /\ without " " tok = true /\
         ValidateToken tok = inr claims /\
         DecodeTransfer (requestBody r) = inr None /\
         out = Panics db)) /\
  (forall tok claims req,
      authorization r = "Bearer " ++ tok -> without " " tok = true ->
      ValidateToken tok = inr claims ->
      DecodeTransfer (requestBody r) = inr (Some req) ->
      let o := TransferFunds db (ClaimsIBAN claims)
                             (ToAccountIban req) (Amount req) in
      err o = None ->
      out = Returns (store o,
                     mkResponseWriter (Some StatusOK) [StatusSuccess])) /\
  (forall tok claims,
      authorization r = "Bearer " ++ tok -> without " " tok = true ->
      ValidateToken tok = inr claims ->
      DecodeTransfer (requestBody r) = inr None ->
      out = Panics db).
Proof.
  intros out; subst out. split; [|split].
  - destruct (String.eqb (authorization r) "") eqn:E0.
    { left. unfold transferRoute, validateTokenMiddlewareOrPanic.
      rewrite E0. eexists; reflexivity. }
    destruct (negb (Nat.eqb (Datatypes.length (Split (authorization r) " ")) 2)
              || negb (String.eqb (nth 0 (Split (authorization r) " ") "") "Bearer"))
      eqn:E.
    { left. unfold transferRoute, validateTokenMiddlewareOrPanic.
      rewrite E0, E. eexists; reflexivity. }
    pose proof E as E'.
    apply bearer_header in E'. destruct E' as (tok & Hh & Hw & Hn).
    destruct (ValidateToken tok) as [e|claims] eqn:V.
    { left. unfold transferRoute, validateTokenMiddlewareOrPanic.
      rewrite E0, E, Hn, V. eexists; reflexivity. }
    rewrite (transferRoute_accepted _ _ _ _ _ _ _ _ Hh Hw V).
    destruct (DecodeTransfer (requestBody r)) as [e|[req|]] eqn:D.
    + left. eexists; reflexivity.
    + cbv zeta.
      destruct (err (TransferFunds db (ClaimsIBAN claims) (ToAccountIban req)
                                   (Amount req))) as [e|] eqn:Ee.
      * left. rewrite (TransferFunds_rollback _ _ _ _ _ Ee).
        eexists; reflexivity.
      * right; left. exists tok, claims, req. cbv zeta. rewrite Ee. auto 10.
    + right; right. exists tok, claims. auto 10.
  - intros tok claims req Hh Hw V D o Ee.
    rewrite (transferRoute_accepted _ _ _ _ _ _ _ _ Hh Hw V), D.
    cbv zeta. fold o. rewrite Ee. reflexivity.
  - intros tok claims Hh Hw V D.
    rewrite (transferRoute_accepted _ _ _ _ _ _ _ _ Hh Hw V), D. reflexivity.
Qed.

(** A holds the token and sends the JSON value null: the route panics and
    the store is as it was.  With a body naming B and 30, it answers 200. *)
Example transfer_route_null_body :
  let route := transferRoute (fun _ => None)
                 (fun t : string => inr (claimsOf t)) sampleDecodeOrNull in
  route bank NewRecorder (mkHTTPRequest "Bearer A" [] None None)
  = Panics bank /\
  route bank NewRecorder
    (mkHTTPRequest "Bearer A" [] None (Some (mkSampleBody "" "B" (ofZ 30))))
  = Returns ([acct "A" (ofZ 70); acct "B" (ofZ 80)],
             mkResponseWriter (Some StatusOK) [StatusSuccess]).
Proof.
  cbv zeta. split; reflexivity.
Qed.

(** X15: what the transfer route tells a caller with a valid token whose
    transfer is refused.  A source or a destination without a row is
    answered 400 with the driver's text "sql: no rows in result set", a
    balance below the amount with 400 "Balance not sufficient"; in each case
    the handler returns and the store is as it was. *)
Theorem transfer_route_refusals (marshalAccount : Account -> option error)
  (ValidateToken : string -> error + Claims) (Body : Type)
  (DecodeTransfer : Body -> error + option TransferRequest)
  (db : table) (r : HTTPRequest Body)
  (tok : string) (claims : Claims) (req : TransferRequest) :
  authorization r = "Bearer " ++ tok -> without " " tok = true ->
  ValidateToken tok = inr claims ->
  DecodeTransfer (requestBody r) = inr (Some req) ->
  let out := transferRoute marshalAccount ValidateToken DecodeTransfer
               db NewRecorder r in
  let source := balanceOf db (ClaimsIBAN claims) in
  (source = None ->
   out = Returns (db, badRequest "sql: no rows in result set")) /\
  (forall sb, source = Some sb -> gtb (Amount req) sb = true ->
     out = Returns (db, badRequest "Balance not sufficient")) /\
  (forall sb, source = Some sb -> gtb (Amount req) sb = false ->
     balanceOf db (ToAccountIban req) = None ->
     out = Returns (db, badRequest "sql: no rows in result set")).
Proof.
  intros Hh Hw V D out source; subst out source.
  rewrite (transferRoute_accepted _ _ _ _ _ _ _ _ Hh Hw V), D. cbv zeta.
  split; [|split].
  - intros Hs. rewrite (TransferFunds_no_source _ _ _ _ Hs). reflexivity.
  - intros sb Hs Hgt.
    rewrite (TransferFunds_insufficient _ _ _ _ _ Hs Hgt). reflexivity.
  - intros sb Hs Hgt Ht.
    rewrite (TransferFunds_no_destination _ _ _ _ _ Hs Hgt Ht). reflexivity.
Qed.

Lemma transfer_route_refusals_witness :
  transferRoute (fun _ => None) (fun t : string => inr (claimsOf t))
                sampleDecode bank NewRecorder
                (mkHTTPRequest "Bearer B" [] None (mkSampleBody "" "A" (ofZ 1000)))
  = Returns (bank, badRequest "Balance not sufficient").
Proof.
  destruct (transfer_route_refusals (fun _ => None)
              (fun t : string => inr (claimsOf t)) SampleBody sampleDecode bank
              (mkHTTPRequest "Bearer B" [] None (mkSampleBody "" "A" (ofZ 1000)))
              "B" (claimsOf "B") (mkTransferRequest "A" (ofZ 1000))
              eq_refl eq_refl eq_refl eq_refl)
    as (_ & H & _).
  exact (H (ofZ 50) eq_refl eq_refl).
Defined.

(** X11: the login route issues a token only for an IBAN that has a row,
    after [checkPasswordHash] has accepted the password against the hash
    stored in the first such row, and for that IBAN; an unknown IBAN and a
    wrong password are both answered 400, with different messages. *)
Theorem login_route (marshalAccount : Account -> option error)
  (CreateToken : string -> error + string) (checkPasswordHash : string -> string -> bool)
  (Body : Type) (DecodeLogin : Body -> error + LoginRequest)
  (db : table) (r : HTTPRequest Body) (req : LoginRequest) :
  DecodeLogin (requestBody r) = inr req ->
  let out := loginRoute marshalAccount CreateToken checkPasswordHash
               DecodeLogin db NewRecorder r in
  fst out = db /\
  match GetAccountByIban db (LoginIBAN req) with
  | inl _ =>
      snd out = badRequest ("Account with IBAN number " ++ LoginIBAN req
                            ++ " not found")
  | inr account =>
      if checkPasswordHash (Password req) (EncryptedPassword account)
      then match CreateToken (LoginIBAN req) with
           | inl e => snd out = badRequest (errorString e)
           | inr token =>
               snd out = mkResponseWriter (Some StatusOK)
                           [LoginResponse (LoginIBAN req) token]
           end
      else snd out = badRequest "Access Denied"
  end.
Proof.
  intros D out; subst out.
  unfold loginRoute, makeHTTPHandleFunc, handleLogin. rewrite D.
  unfold GetAccountByIban.
  destruct (find (hasIban (LoginIBAN req)) db) as [account|]; simpl;
    [|split; reflexivity].
  destruct (checkPasswordHash (Password req) (EncryptedPassword account));
    simpl; [|split; reflexivity].
  destruct (CreateToken (LoginIBAN req)) as [e|token]; simpl;
    split; reflexivity.
Qed.

(** X12: what the account route answers.  An id that [Atoi] does not accept
    gets 400 "Invalid id: ..."; an id with no row gets 400 "Account with id
    N not found"; an id with a row gets 200 and the first row of that id;
    and when that row does not encode, the status already sent stays 200
    while the body carries the encoder's error. *)
Theorem get_account_route (pqOutOfRange : Z -> error)
  (marshalAccount : Account -> option error) (Body : Type)
  (db : table) (r : HTTPRequest Body) :
  let out := getAccountRoute pqOutOfRange marshalAccount db NewRecorder r in
  let idStr := varOf (vars r) "id" in
  fst out = db /\
  match Atoi idStr with
  | None => snd out = badRequest ("Invalid id: " ++ idStr)
  | Some id =>
      if inInteger id
      then match find (hasId id) db with
           | None =>
               snd out = badRequest ("Account with id " ++ Itoa id ++ " not found")
           | Some account =>
               ID account = id /\
               match marshalAccount account with
               | None =>
                   snd out = mkResponseWriter (Some StatusOK) [AccountJSON account]
               | Some e =>
                   snd out = mkResponseWriter (Some StatusOK)
                               [APIError (errorString e)]
               end
           end
      else snd out = badRequest (errorString (pqOutOfRange id))
  end.
Proof.
  intros out idStr; subst out idStr.
  unfold getAccountRoute, makeHTTPHandleFunc, handleGetAccount, getId.
  destruct (Atoi (varOf (vars r) "id")) as [id|]; simpl; [|split; reflexivity].
  unfold GetAccountById.
  destruct (inInteger id); simpl; [|split; reflexivity].
  destruct (find (hasId id) db) as [account|] eqn:F; simpl;
    [|split; reflexivity].
  apply find_some in F. destruct F as [_ F]. unfold hasId in F.
  apply Z.eqb_eq in F.
  unfold WriteJSON. simpl.
  destruct (marshalAccount account); simpl; auto.
Qed.

(** X13: the delete route answers 200 and the id for every id the column can
    hold, whether a row carried it or not; when none did, the table is left
    as it was. *)
Theorem delete_account_route (pqOutOfRange : Z -> error)
  (marshalAccount : Account -> option error) (Body : Type)
  (db : table) (r : HTTPRequest Body) (id : Z) :
  Atoi (varOf (vars r) "id") = Some id -> inInteger id = true ->
  let out := deleteAccountRoute pqOutOfRange marshalAccount db NewRecorder r in
  snd out = mkResponseWriter (Some StatusOK) [Deleted id] /\
  find (hasId id) (fst out) = None /\
  (find (hasId id) db = None -> fst out = db).
Proof.
  intros A I out; subst out.
  unfold deleteAccountRoute, makeHTTPHandleFunc, handleDeleteAccount, getId.
  rewrite A. unfold DeleteAccount. rewrite I. simpl.
  split; [reflexivity|]. split; [apply find_hasId_deleted|].
  apply filter_absent.
Qed.

(** X14: every route answers 200 or 400 and nothing else, whatever the
    request and the store, but for the one panic of the transfer route: a
    request with an accepted token whose body decodes to a nil request gets
    no answer, the store staying as it was. *)
Theorem routes_answer_200_or_400 (pqOutOfRange : Z -> error)
  (marshalAccount : Account -> option error)
  (ValidateToken : string -> error + Claims)
  (CreateToken : string -> error + string) (checkPasswordHash : string -> string -> bool)
  (Body : Type) (DecodeTransfer : Body -> error + option TransferRequest)
  (DecodeLogin : Body -> error + LoginRequest)
  (db : table) (r : HTTPRequest Body) :
  let answers (out : table * ResponseWriter) :=
    statusCode (snd out) = Some StatusOK
    \/ statusCode (snd out) = Some StatusBadRequest in
  let nilBody :=
    exists tok claims,
      authorization r = "Bearer " ++ tok /\ without " " tok = true /\
      ValidateToken tok = inr claims /\
      DecodeTransfer (requestBody r) = inr None in
  answers (getAccountRoute pqOutOfRange marshalAccount db NewRecorder r) /\
  answers (deleteAccountRoute pqOutOfRange marshalAccount db NewRecorder r) /\
  answers (loginRoute marshalAccount CreateToken checkPasswordHash
                      DecodeLogin db NewRecorder r) /\
  match transferRoute marshalAccount ValidateToken DecodeTransfer
                      db NewRecorder r with
  | Returns out => answers out /\ ~ nilBody
  | Panics db' => db' = db /\ nilBody
  end.
Proof.
  intros answers nilBody; subst answers nilBody. cbv beta.
  split; [|split; [|split]].
  - unfold getAccountRoute, makeHTTPHandleFunc, handleGetAccount, getId.
    destruct (Atoi _); simpl; [|right; reflexivity].
    unfold GetAccountById. destruct (inInteger _); simpl; [|right; reflexivity].
    destruct (find _ db); simpl; [|right; reflexivity].
    unfold WriteJSON. simpl. destruct (marshalAccount _); simpl; left; reflexivity.
  - unfold deleteAccountRoute, makeHTTPHandleFunc, handleDeleteAccount, getId.
    destruct (Atoi _); simpl; [|right; reflexivity].
    unfold DeleteAccount. destruct (inInteger _); simpl;
      [left | right]; reflexivity.
  - unfold loginRoute, makeHTTPHandleFunc, handleLogin.
    destruct (DecodeLogin _); simpl; [right; reflexivity|].
    destruct (GetAccountByIban _ _); simpl; [right; reflexivity|].
    destruct (checkPasswordHash _ _); simpl; [|right; reflexivity].
    destruct (CreateToken _); simpl; [right | left]; reflexivity.
  - assert (N : forall tok, authorization r = "Bearer " ++ tok ->
                            without " " tok = true ->
                            nth 1 (Split (authorization r) " ") "" = tok).
    { intros tok Hh Hw. rewrite Hh.
      change ("Bearer " ++ tok) with ("Bearer" ++ String " " tok).
      rewrite (Split_join "Bearer" tok " " eq_refl Hw). reflexivity. }
    destruct (String.eqb (authorization r) "") eqn:E0.
    { unfold transferRoute, validateTokenMiddlewareOrPanic. rewrite E0.
      split; [right; reflexivity|].
      intros (tok & claims & Hh & _). rewrite Hh in E0. discriminate. }
    destruct (negb (Nat.eqb (Datatypes.length (Split (authorization r) " ")) 2)
              || negb (String.eqb (nth 0 (Split (authorization r) " ") "")
                                  "Bearer")) eqn:E.
    { unfold transferRoute, validateTokenMiddlewareOrPanic. rewrite E0, E.
      split; [right; reflexivity|].
      intros (tok & claims & Hh & Hw & _).
      assert (E' : negb (Nat.eqb (Datatypes.length (Split (authorization r) " ")) 2)
                   || negb (String.eqb (nth 0 (Split (authorization r) " ") "")
                                       "Bearer") = false).
      { apply bearer_header. exists tok. split; [exact Hh|].
        split; [exact Hw | exact (N tok Hh Hw)]. }
      rewrite E in E'. discriminate. }
    pose proof E as E'.
    apply bearer_header in E'. destruct E' as (tok & Hh & Hw & Hn).
    destruct (ValidateToken tok) as [e|claims] eqn:V.
    { unfold transferRoute, validateTokenMiddlewareOrPanic.
      rewrite E0, E, Hn, V.
      split; [right; reflexivity|].
      intros (tok' & claims' & Hh' & Hw' & V' & _).
      rewrite <- (N tok' Hh' Hw'), Hn, V in V'. discriminate. }
    rewrite (transferRoute_accepted _ _ _ _ _ _ _ _ Hh Hw V).
    destruct (DecodeTransfer (requestBody r)) as [e|[req|]] eqn:D.
    + split; [right; reflexivity|].
      intros (_ & _ & _ & _ & _ & D'). discriminate.
    + cbv zeta.
      destruct (err (TransferFunds _ _ _ _));
        (split; [(right; reflexivity) || (left; reflexivity)|]);
        intros (_ & _ & _ & _ & _ & D'); discriminate.
    + split; [reflexivity|]. exists tok, claims. auto.
Qed.

Lemma login_route_witness :
  let decode := fun b : string * string => inr (mkLoginRequest (fst b) (snd b)) in
  let check := fun password hash : string => String.eqb hash ("hash of " ++ password) in
  let token := fun iban : string => inr ("token for " ++ iban) in
  let db := [mkAccount 1 "" "" "hash of secret" "A" (ofZ 100) 0] in
  snd (loginRoute (fun _ => None) token check decode db NewRecorder
         (mkHTTPRequest "" [] None ("A", "secret")))
  = mkResponseWriter (Some StatusOK) [LoginResponse "A" "token for A"] /\
  snd (loginRoute (fun _ => None) token check decode db NewRecorder
         (mkHTTPRequest "" [] None ("A", "guess")))
  = badRequest "Access Denied".
Proof.
  split.
  - exact (proj2 (login_route (fun _ => None)
             (fun iban : string => inr ("token for " ++ iban))
             (fun password hash : string => String.eqb hash ("hash of " ++ password))
             (string * string)
             (fun b : string * string => inr (mkLoginRequest (fst b) (snd b)))
             [mkAccount 1 "" "" "hash of secret" "A" (ofZ 100) 0]
             (mkHTTPRequest "" [] None ("A", "secret"))
             (mkLoginRequest "A" "secret") eq_refl)).
  - exact (proj2 (login_route (fun _ => None)
             (fun iban : string => inr ("token for " ++ iban))
             (fun password hash : string => String.eqb hash ("hash of " ++ password))
             (string * string)
             (fun b : string * string => inr (mkLoginRequest (fst b) (snd b)))
             [mkAccount 1 "" "" "hash of secret" "A" (ofZ 100) 0]
             (mkHTTPRequest "" [] None ("A", "guess"))
             (mkLoginRequest "A" "guess") eq_refl)).
Defined.

Lemma delete_account_route_witness :
  snd (deleteAccountRoute (fun _ : Z => Errorf "out of range") (fun _ => None)
         bank NewRecorder (mkHTTPRequest "" [("id", "7")] None tt))
  = mkResponseWriter (Some StatusOK) [Deleted 7] /\
  fst (deleteAccountRoute (fun _ : Z => Errorf "out of range") (fun _ => None)
         bank NewRecorder (mkHTTPRequest "" [("id", "7")] None tt))
  = bank.
Proof.
  destruct (delete_account_route (fun _ : Z => Errorf "out of range")
              (fun _ => None) unit bank
              (mkHTTPRequest "" [("id", "7")] None tt) 7 eq_refl eq_refl)
    as (H1 & _ & H3).
  split; [exact H1 | exact (H3 eq_refl)].
Defined.
